(** * Sugar Glucose Tracker: the read-time aggregation and filtering
      pipeline of [app/page.tsx] and the fetch handler of the offline
      cache worker, embedded in Rocq.

    Conventions of the embedding.
    - A JavaScript [number] is an exact rational ([Q]); equality of numbers
      is [Qeq].  Array lengths and page numbers are integers ([Z]).
    - A JavaScript string is a [string] of code units below 256; the order
      [<] on strings is the lexicographic order on code units.
    - An optional field ([note?: string]) is an [option]; a filter that can
      be switched off with the value ["All"] is an [option] whose [None]
      is ["All"].
    - What the browser supplies (parsing a timestamp in the local time
      zone, locale formatting, [Number.prototype.toString]) is a field of
      the class [Host]; every theorem holds for every host.
    - A [Date] is the record of the fields the page reads from it; a
      timestamp that does not parse (an invalid date, whose fields are
      [NaN]) is outside the model.
    - [Array.prototype.sort] is a stable insertion sort driven by the
      comparator it is given. *)

From Stdlib Require Import ZArith QArith Qround Qminmax Qabs Lqa.
From Stdlib Require Import String Ascii List Sorted Permutation Lia Bool.
From Stdlib Require OrderedTypeEx.
From stdpp Require Import base list strings gmap.

Import ListNotations.
#[local] Open Scope Z_scope.

(** ** JavaScript primitives used by the page *)

Module Js.

(** [Math.round]: nearest integer, a tie goes up. *)
Definition Math_round (x : Q) : Z := Qfloor (x + (1 # 2))%Q.

(** [Math.ceil]. *)
Definition Math_ceil (x : Q) : Z := Qceiling x.

(** [x || y] on numbers: [0] is falsy. *)
Definition or_num (x y : Z) : Z := if x =? 0 then y else x.

(** The number of an array length. *)
Definition len {A} (l : list A) : Z := Z.of_nat (List.length l).

(** Relative index of [Array.prototype.slice]: a negative index counts
    from the end, and the result is clamped into [[0, len]]. *)
Definition relIndex (n k : Z) : Z :=
  if k <? 0 then Z.max (n + k) 0 else Z.min k n.

(** [l.slice(start, end)]. *)
Definition slice {A} (l : list A) (start end_ : Z) : list A :=
  let k := relIndex (len l) start in
  let final := relIndex (len l) end_ in
  firstn (Z.to_nat (final - k)) (skipn (Z.to_nat k) l).

(** [l.slice(start)]. *)
Definition slice_from {A} (l : list A) (start : Z) : list A :=
  slice l start (len l).

(** [l.reduce((acc, x) => acc + f x, 0)]. *)
Definition sum_by {A} (f : A -> Q) (l : list A) : Q :=
  fold_left (fun acc x => (acc + f x)%Q) l 0%Q.

(** [Array.prototype.sort] with a comparator, as a stable insertion
    sort: [x] goes in front of the first element it does not compare
    greater than. *)
Fixpoint insert_by {A} (cmp : A -> A -> Z) (x : A) (l : list A) : list A :=
  match l with
  | [] => [x]
  | y :: l' => if 0 <? cmp x y then y :: insert_by cmp x l' else x :: y :: l'
  end.

Fixpoint sort_by {A} (cmp : A -> A -> Z) (l : list A) : list A :=
  match l with
  | [] => []
  | x :: l' => insert_by cmp x (sort_by cmp l')
  end.

(** *** Strings *)

(** [toLowerCase] on code units below 256: A-Z and the Latin-1 capitals
    (except the multiplication sign) move up by 32. *)
Definition toLowerChar (c : ascii) : ascii :=
  let n := N_of_ascii c in
  if ((65 <=? n) && (n <=? 90)
      || (192 <=? n) && (n <=? 222) && negb (n =? 215))%N
  then ascii_of_N (n + 32) else c.

Fixpoint toLowerCase (s : string) : string :=
  match s with
  | EmptyString => EmptyString
  | String c s' => String (toLowerChar c) (toLowerCase s')
  end.

(** White space and line terminators below 256, as [trim] removes them. *)
Definition isWhiteSpace (c : ascii) : bool :=
  let n := N_of_ascii c in
  ((9 <=? n) && (n <=? 13) || (n =? 32) || (n =? 160))%N.

Fixpoint trimStart (s : string) : string :=
  match s with
  | EmptyString => EmptyString
  | String c s' => if isWhiteSpace c then trimStart s' else s
  end.

Fixpoint trimEnd (s : string) : string :=
  match s with
  | EmptyString => EmptyString
  | String c s' =>
      let t := trimEnd s' in
      if isWhiteSpace c && String.eqb t EmptyString then EmptyString
      else String c t
  end.

Definition trim (s : string) : string := trimEnd (trimStart s).

(** A string is truthy when it is not empty. *)
Definition truthy (s : string) : bool := negb (String.eqb s EmptyString).

(** [s.includes(t)]. *)
Fixpoint includes (s t : string) : bool :=
  String.prefix t s
  || match s with
     | EmptyString => false
     | String _ s' => includes s' t
     end.

(** [s.padStart(target, pad)]: the fill repeats [pad] and is cut to the
    missing length; an empty [pad] leaves [s] alone. *)
Fixpoint cycle (n : nat) (pad rest : string) : string :=
  match n with
  | O => EmptyString
  | S n' =>
      match rest with
      | String c r => String c (cycle n' pad r)
      | EmptyString =>
          match pad with
          | String c r => String c (cycle n' pad r)
          | EmptyString => EmptyString
          end
      end
  end.

Definition padStart (target : nat) (pad s : string) : string :=
  if (target <=? String.length s)%nat then s
  else (cycle (target - String.length s) pad pad ++ s)%string.

(** [s.split(sep)] for a separator of one code unit. *)
Fixpoint split (sep : ascii) (s : string) : list string :=
  match s with
  | EmptyString => [EmptyString]
  | String c s' =>
      if Ascii.eqb c sep then EmptyString :: split sep s'
      else match split sep s' with
           | h :: t => String c h :: t
           | [] => [String c EmptyString]
           end
  end.

(** [l.join(sep)]. *)
Fixpoint join (sep : string) (l : list string) : string :=
  match l with
  | [] => EmptyString
  | [x] => x
  | x :: l' => (x ++ sep ++ join sep l')%string
  end.

(** The double quote, code unit 34. *)
Definition dquote : ascii := ascii_of_N 34.

(** [s.replace] of every double quote by two double quotes. *)
Fixpoint doubleQuotes (s : string) : string :=
  match s with
  | EmptyString => EmptyString
  | String c s' =>
      if Ascii.eqb c dquote then String c (String c (doubleQuotes s'))
      else String c (doubleQuotes s')
  end.

(** [String(n)] for an integer [n]. *)
Definition digitChar (d : Z) : ascii := ascii_of_N (48 + Z.to_N d).

Fixpoint digitsOf (fuel : nat) (n : Z) (acc : string) : string :=
  match fuel with
  | O => acc
  | S f =>
      let acc' := String (digitChar (n mod 10)) acc in
      if n <? 10 then acc' else digitsOf f (n / 10) acc'
  end.

Definition String_of_nonneg (n : Z) : string :=
  digitsOf (S (Z.to_nat (Z.log2 n))) n EmptyString.

Definition String_of_int (n : Z) : string :=
  if n <? 0 then String "-" (String_of_nonneg (- n)) else String_of_nonneg n.

(** *** Dates *)

(** A [Date] object, as the views the page reads from it: the time
    value in milliseconds, the local calendar fields and the UTC ones.
    Months count from 0. *)
Record JsDate := mkJsDate {
  getTime : Z;
  getFullYear : Z;
  getMonth : Z;
  getDate : Z;
  getHours : Z;
  getMinutes : Z;
  getUTCFullYear : Z;
  getUTCMonth : Z;
  getUTCDate : Z;
  getUTCHours : Z;
  getUTCMinutes : Z;
  getUTCSeconds : Z;
  getUTCMilliseconds : Z
}.

(** What the browser supplies. *)
Class Host : Type := {
  (** [new Date(s)], read in the local time zone *)
  newDate : string -> JsDate;
  (** [toLocaleDateString("en-US", {month: "short", day: "numeric", year: "numeric"})] *)
  toLocaleDateString : JsDate -> string;
  (** [toLocaleTimeString("en-US", {hour: "numeric", minute: "2-digit"})] *)
  toLocaleTimeString : JsDate -> string;
  (** [Intl.DateTimeFormat("en", {month: "short", day: "numeric"}).format] *)
  formatMonthDay : JsDate -> string;
  (** [Number.prototype.toString] *)
  numberToString : Q -> string
}.

Definition pad2 (n : Z) : string := padStart 2 "0" (String_of_int n).

(** [Date.prototype.toISOString]: four digits for the years 0 to 9999,
    a sign and six digits otherwise. *)
Definition isoYear (y : Z) : string :=
  if (0 <=? y) && (y <=? 9999) then padStart 4 "0" (String_of_int y)
  else String (if y <? 0 then "-"%char else "+"%char)
              (padStart 6 "0" (String_of_int (Z.abs y))).

Definition toISOString (d : JsDate) : string :=
  (isoYear (getUTCFullYear d) ++ "-" ++ pad2 (getUTCMonth d + 1) ++ "-"
     ++ pad2 (getUTCDate d) ++ "T" ++ pad2 (getUTCHours d) ++ ":"
     ++ pad2 (getUTCMinutes d) ++ ":" ++ pad2 (getUTCSeconds d) ++ "."
     ++ padStart 3 "0" (String_of_int (getUTCMilliseconds d)) ++ "Z")%string.

End Js.

(** ** The data model of [app/page.tsx] *)

Module Page.

Import Js.

Inductive Period := Fasting | PreMeal | PostMeal.

Record Entry := mkEntry {
  id : string;
  value : Q;
  date : string;
  period : Period;
  note : option string
}.

(** The sample readings the page starts with. *)
Definition initialEntries : list Entry :=
  [ mkEntry "1" (57 # 10) "2024-05-17T07:45" Fasting None;
    mkEntry "2" (77 # 10) "2024-05-16T12:15" PostMeal None;
    mkEntry "3" (66 # 10) "2024-05-15T18:05" PreMeal None;
    mkEntry "4" (53 # 10) "2024-05-15T07:20" Fasting
            (Some "Light walk + half portion breakfast") ].

Definition PAGE_SIZE : Z := 10.

Module TARGET_RANGE.
Definition lowUpper : Q := 44 # 10.
Definition highLower : Q := 78 # 10.
End TARGET_RANGE.

Inductive ReadingCategory := low | good | high.

Definition Qltb (x y : Q) : bool := negb (Qle_bool y x).

Definition getReadingCategory (v : Q) : ReadingCategory :=
  if Qltb v TARGET_RANGE.lowUpper then low
  else if Qltb TARGET_RANGE.highLower v then high
  else good.

(** The [averages] memo; the field [recent] is what the page shows as
    the recent average. *)
Record Summary := mkSummary { average : Q; recent : Q; trend : Q }.

Definition round1 (x : Q) : Q := (inject_Z (Math_round (x * 10)) / 10)%Q.

Definition averages (entries : list Entry) : Summary :=
  if len entries =? 0 then mkSummary 0 0 0
  else
    let values := map value entries in
    let avg := (sum_by (fun v => v) values / inject_Z (len values))%Q in
    let recentEntries := slice entries 0 (Z.min 3 (len entries)) in
    let recentAvg :=
      (sum_by value recentEntries
         / inject_Z (or_num (len recentEntries) 1))%Q in
    mkSummary (round1 avg) (round1 recentAvg) (round1 (recentAvg - avg)).

(** [sortEntriesByDateDesc]: the comparator answers [1] when [a.date]
    is below [b.date] and [-1] otherwise. *)
Definition cmpDateDesc (a b : Entry) : Z :=
  if String.ltb (date a) (date b) then 1 else -1.

Definition sortEntriesByDateDesc (l : list Entry) : list Entry :=
  sort_by cmpDateDesc l.

(** *** History: filters and pages *)

Definition periodName (p : Period) : string :=
  match p with
  | Fasting => "Fasting"
  | PreMeal => "Pre-Meal"
  | PostMeal => "Post-Meal"
  end.

Definition Period_eqb (p q : Period) : bool :=
  match p, q with
  | Fasting, Fasting | PreMeal, PreMeal | PostMeal, PostMeal => true
  | _, _ => false
  end.

Definition ReadingCategory_eqb (c d : ReadingCategory) : bool :=
  match c, d with
  | low, low | good, good | high, high => true
  | _, _ => false
  end.

(** The filter state of the history view. *)
Record Filters := mkFilters {
  searchTerm : string;
  filterPeriod : option Period;
  filterCategory : option ReadingCategory;
  filterStartDate : string;
  filterEndDate : string
}.

Section WithHost.
Context {host : Host}.

Definition toInputDate (isoString : string) : string :=
  let d := newDate isoString in
  let year := String_of_int (getFullYear d) in
  let month := padStart 2 "0" (String_of_int (getMonth d + 1)) in
  let day := padStart 2 "0" (String_of_int (getDate d)) in
  (year ++ "-" ++ month ++ "-" ++ day)%string.

Definition toInputTime (isoString : string) : string :=
  let d := newDate isoString in
  let hours := padStart 2 "0" (String_of_int (getHours d)) in
  let minutes := padStart 2 "0" (String_of_int (getMinutes d)) in
  (hours ++ ":" ++ minutes)%string.

(** The fields the search term is looked up in. *)
Definition searchFields (entry : Entry) : list string :=
  let d := newDate (date entry) in
  [ periodName (period entry);
    match note entry with Some n => n | None => EmptyString end;
    numberToString (value entry);
    toLocaleDateString d;
    toLocaleTimeString d ].

(** The callback of [entries.filter] in [filteredEntries]; [term] is
    the search term already trimmed and lower-cased. *)
Definition keepEntry (term : string) (f : Filters) (entry : Entry) : bool :=
  let entryDate := toInputDate (date entry) in
  if truthy (filterStartDate f) && String.ltb entryDate (filterStartDate f)
  then false
  else if truthy (filterEndDate f) && String.ltb (filterEndDate f) entryDate
  then false
  else if match filterPeriod f with
          | Some p => negb (Period_eqb (period entry) p)
          | None => false
          end
  then false
  else if match filterCategory f with
          | Some c => negb (ReadingCategory_eqb (getReadingCategory (value entry)) c)
          | None => false
          end
  then false
  else if negb (truthy term) then true
  else existsb (fun field => includes (toLowerCase field) term)
               (searchFields entry).

Definition filteredEntries (entries : list Entry) (f : Filters) : list Entry :=
  let term := toLowerCase (trim (searchTerm f)) in
  List.filter (keepEntry term f) entries.

End WithHost.

(** [Math.max(1, Math.ceil(n / PAGE_SIZE) || 1)] *)
Definition maxPage (n : Z) : Z :=
  Z.max 1 (or_num (Math_ceil (inject_Z n / inject_Z PAGE_SIZE)%Q) 1).

Definition totalPages (filtered : list Entry) : Z := maxPage (len filtered).

Definition paginatedEntries (filtered : list Entry) (currentPage : Z) : list Entry :=
  let start := (currentPage - 1) * PAGE_SIZE in
  slice filtered start (start + PAGE_SIZE).

(** The effect that runs when [filteredEntries.length] changes. *)
Definition clampPage (n : Z) (prev : Z) : Z := Z.min prev (maxPage n).


(** The part of the view state the pager depends on: the filtered list on
    the screen and the current page. *)
Record Pager := mkPager { shown : list Entry; currentPage : Z }.

Inductive PagerEvent :=
| FiltersEdited (filtered : list Entry)
| EntriesChanged (filtered : list Entry)
| PrevClicked
| NextClicked.

(** A render after which [filteredEntries.length] differs from the render
    before runs the effect. *)
Definition afterRender (old new : Pager) : Pager :=
  if len (shown new) =? len (shown old) then new
  else mkPager (shown new) (clampPage (len (shown new)) (currentPage new)).

(** The page starts on page 1, and the effect runs once on mount. *)
Definition initialPager (filtered : list Entry) : Pager :=
  mkPager filtered (clampPage (len filtered) 1).

(** Editing a filter control also calls [setCurrentPage(1)]; a change of
    the collection keeps the page; the two buttons move by one page. *)
Definition pagerStep (s : Pager) (ev : PagerEvent) : Pager :=
  match ev with
  | FiltersEdited l => afterRender s (mkPager l 1)
  | EntriesChanged l => afterRender s (mkPager l (currentPage s))
  | PrevClicked => mkPager (shown s) (Z.max 1 (currentPage s - 1))
  | NextClicked =>
      mkPager (shown s) (Z.min (totalPages (shown s)) (currentPage s + 1))
  end.

Definition pagerRun (s : Pager) (evs : list PagerEvent) : Pager :=
  fold_left pagerStep evs s.

(** *** The chart: one point per day *)

Module Chart.

(** The values of a day, by period, in the order they were pushed. *)
Record Bucket := mkBucket {
  fasting : list Q;
  preMeal : list Q;
  postMeal : list Q
}.

(** A [Map] from date keys to buckets: keys are unique and are kept in
    the order of their first insertion. *)
Definition Buckets : Type := list (string * Bucket).

Fixpoint has (key : string) (m : Buckets) : bool :=
  match m with
  | [] => false
  | (k, _) :: m' => String.eqb k key || has key m'
  end.

Definition set_new (key : string) (b : Bucket) (m : Buckets) : Buckets :=
  m ++ [(key, b)].

Definition ensureBucket (key : string) (m : Buckets) : Buckets :=
  if has key m then m else set_new key (mkBucket [] [] []) m.

(** A [push] on one of the arrays of the bucket stored under [key]. *)
Fixpoint update (key : string) (f : Bucket -> Bucket) (m : Buckets) : Buckets :=
  match m with
  | [] => []
  | (k, b) :: m' =>
      if String.eqb k key then (k, f b) :: m' else (k, b) :: update key f m'
  end.

Definition push (entry : Entry) (b : Bucket) : Bucket :=
  match period entry with
  | Fasting => mkBucket (fasting b ++ [value entry]) (preMeal b) (postMeal b)
  | PreMeal => mkBucket (fasting b) (preMeal b ++ [value entry]) (postMeal b)
  | PostMeal => mkBucket (fasting b) (preMeal b) (postMeal b ++ [value entry])
  end.

(** The mean of a bucket array, rounded; [None] is [undefined]. *)
Definition average (values : list Q) : option Q :=
  if len values =? 0 then None
  else Some (round1 (sum_by (fun v => v) values / inject_Z (len values))%Q).

Module Point.
Record ChartPoint := mkChartPoint {
  label : string;
  fasting : option Q;
  preMeal : option Q;
  postMeal : option Q
}.
End Point.

Section WithHost.
Context {host : Host}.

(** The body of [entries.forEach]. *)
Definition addEntry (m : Buckets) (entry : Entry) : Buckets :=
  let dateKey := toInputDate (date entry) in
  update dateKey (push entry) (ensureBucket dateKey m).

Definition buildBuckets (entries : list Entry) : Buckets :=
  fold_left addEntry entries [].

(** The local midnight that starts the day of a key. *)
Definition midnight (dateKey : string) : JsDate :=
  newDate (dateKey ++ "T00:00:00")%string.

Definition cmpDay (a b : string * Bucket) : Z :=
  getTime (midnight (fst a)) - getTime (midnight (fst b)).

(** The buckets the chart draws: sorted by day, the last 8 of them. *)
Definition chartBuckets (entries : list Entry) : Buckets :=
  slice_from (sort_by cmpDay (buildBuckets entries)) (-8).

Definition toPoint (kb : string * Bucket) : Point.ChartPoint :=
  let (dateKey, bucket) := kb in
  Point.mkChartPoint
    (formatMonthDay (midnight dateKey))
    (average (fasting bucket))
    (average (preMeal bucket))
    (average (postMeal bucket)).

Definition chartData (entries : list Entry) : list Point.ChartPoint :=
  if len entries =? 0 then [] else map toPoint (chartBuckets entries).

End WithHost.

End Chart.

(** *** CSV export *)

Module Csv.



(** [hours % 12 || 12] and the rest of [toMeridiemTime]. *)
Definition toMeridiemTime (d : JsDate) : string :=
  let hours := getHours d in
  let minutes := padStart 2 "0" (String_of_int (getMinutes d)) in
  let suffix := if 12 <=? hours then "PM" else "AM" in
  let hours := or_num (Z.rem hours 12) 12 in
  let formattedHours := padStart 2 "0" (String_of_int hours) in
  (formattedHours ++ ":" ++ minutes ++ " " ++ suffix)%string.

Definition escapeCell (value : string) : string :=
  String dquote (doubleQuotes value ++ String dquote EmptyString).

Section WithHost.
Context {host : Host}.

(** [x.toFixed(1)]: the integer [n] nearest to ten times the magnitude (the
    larger one on a tie), its digits padded to two, a point before the
    last digit, and the sign of [x] in front.  From [10^21] on the result
    is that of [toString]. *)
Definition toFixed1 (x : Q) : string :=
  let a := Qabs x in
  if Qle_bool (inject_Z (10 ^ 21)) a then numberToString x
  else
    let n := Qfloor (a * 10 + (1 # 2))%Q in
    let m := padStart 2 "0" (String_of_int n) in
    let k := String.length m in
    ((if Qltb x 0 then "-" else "")
       ++ substring 0 (k - 1) m ++ "." ++ substring (k - 1) 1 m)%string.

Definition row (entry : Entry) : list string :=
  let d := newDate (date entry) in
  [ hd EmptyString (split "T" (toISOString d));
    toMeridiemTime d;
    periodName (period entry);
    toFixed1 (value entry);
    match note entry with Some n => n | None => EmptyString end ].


Definition line (cells : list string) : string :=
  join "," (map escapeCell cells).



End WithHost.

End Csv.

(** *** Rows of the remote store and the mutations of the collection *)

Module Row.
Record SupabaseRow := mkRow {
  id : string;
  value : Q;
  reading_date : string;
  period : string;
  note : option string
}.
End Row.

Definition allowedPeriods : list string := ["Fasting"; "Pre-Meal"; "Post-Meal"].

(** The cast [row.period as Entry["period"]] of a string that names a
    period. *)
Definition periodOfName (s : string) : Period :=
  if String.eqb s "Pre-Meal" then PreMeal
  else if String.eqb s "Post-Meal" then PostMeal
  else Fasting.

Definition mapRowToEntry (row : Row.SupabaseRow) : Entry :=
  mkEntry (Row.id row) (Row.value row) (Row.reading_date row)
          (if existsb (String.eqb (Row.period row)) allowedPeriods
           then periodOfName (Row.period row) else Fasting)
          (Row.note row).

(** The [payload] that [handleSubmit] sends for a draft entry. *)
Definition payload (draftEntry : Entry) : Row.SupabaseRow :=
  Row.mkRow (id draftEntry) (value draftEntry) (date draftEntry)
            (periodName (period draftEntry)) (note draftEntry).

(** The three updates [setEntries] is called with: after a delete, after
    an edit and after a new reading. *)
Definition afterDelete (entry : Entry) (prev : list Entry) : list Entry :=
  List.filter (fun item => negb (String.eqb (id item) (id entry))) prev.

Definition afterUpdate (updatedEntry : Entry) (prev : list Entry) : list Entry :=
  sortEntriesByDateDesc
    (map (fun entry => if String.eqb (id entry) (id updatedEntry)
                       then updatedEntry else entry) prev).

Definition afterInsert (savedEntry : Entry) (prev : list Entry) : list Entry :=
  sortEntriesByDateDesc (savedEntry :: prev).



(** *** What the history footer and the cards display *)

Definition startIndex (filtered : list Entry) (currentPage : Z) : Z :=
  if len filtered =? 0 then 0 else (currentPage - 1) * PAGE_SIZE + 1.

Definition endIndex (filtered : list Entry) (currentPage : Z) : Z :=
  if len filtered =? 0 then 0
  else Z.min (len filtered) (currentPage * PAGE_SIZE).

Section Display.
Context {host : Host}.


Definition isNumber (v : option Q) : bool :=
  match v with Some _ => true | None => false end.

Definition hasFastingSeries (entries : list Entry) : bool :=
  existsb (fun point => isNumber (Chart.Point.fasting point)) (Chart.chartData entries).

Definition hasPreMealSeries (entries : list Entry) : bool :=
  existsb (fun point => isNumber (Chart.Point.preMeal point)) (Chart.chartData entries).

Definition hasPostMealSeries (entries : list Entry) : bool :=
  existsb (fun point => isNumber (Chart.Point.postMeal point)) (Chart.chartData entries).

Definition shouldShowLegend (entries : list Entry) : bool :=
  hasFastingSeries entries || hasPreMealSeries entries || hasPostMealSeries entries.

End Display.

(** *** The chart of the first version of the page: the last 8 readings *)

Module V1.

Record TrendPoint := mkTrendPoint {
  value : Q;
  label : string;
  period : Period
}.

Section WithHost.
Context {host : Host}.
(** [Intl.DateTimeFormat("en", {weekday: "short", hour: "numeric",
    minute: "2-digit"}).format] *)
Variable formatWeekdayTime : JsDate -> string.

Definition cmpTime (a b : Entry) : Z :=
  getTime (newDate (date a)) - getTime (newDate (date b)).

Definition recentReadings (entries : list Entry) : list Entry :=
  slice_from (sort_by cmpTime entries) (-8).

Definition chartData (entries : list Entry) : list TrendPoint :=
  map (fun entry =>
         mkTrendPoint (Page.value entry)
                      (formatWeekdayTime (newDate (date entry)))
                      (Page.period entry))
      (recentReadings entries).

End WithHost.

End V1.
End Page.


(** ** The offline cache worker *)

Module Sw.

Definition CACHE_NAME : string := "sgt-cache-v1".

Inductive ResponseType := basic | cors | default | error | opaque | opaqueredirect.

Record Response := mkResponse {
  status : Z;
  type : ResponseType;
  body : string
}.

Record Request := mkRequest { method : string; url : string }.

(** A cache maps a request, by its URL, to a response; the cache storage
    maps the name of a cache to the cache. *)
Definition Cache : Type := gmap string Response.
Definition CacheStorage : Type := list (string * Cache).

(** A promise that has settled. *)
Inductive Settled (A : Type) : Type :=
| Fulfilled (a : A)
| Rejected.
Arguments Fulfilled {A} a.
Arguments Rejected {A}.

(** [caches.match(request)]: the first cache that has the request
    answers; [None] is [undefined]. *)
Fixpoint caches_match (storage : CacheStorage) (request : Request) : option Response :=
  match storage with
  | [] => None
  | (_, cache) :: storage' =>
      match cache !! url request with
      | Some r => Some r
      | None => caches_match storage' request
      end
  end.

(** [caches.open(name).then(cache => cache.put(request, response))]: the
    cache is created when it does not exist. *)
Fixpoint caches_put (name : string) (request : Request) (r : Response)
         (storage : CacheStorage) : CacheStorage :=
  match storage with
  | [] => [(name, {[ url request := r ]})]
  | (n, cache) :: storage' =>
      if String.eqb n name then (n, <[ url request := r ]> cache) :: storage'
      else (n, cache) :: caches_put name request r storage'
  end.

Definition isOpaque (t : ResponseType) : bool :=
  match t with opaque => true | _ => false end.

(** The [then] callback on the network response: a plain response with
    status 200 is copied into the cache; the response is handed on.  A
    fetch that is fulfilled always carries a response, so the test
    [!networkResponse] of the source is never true and has no branch
    here. *)
Definition onNetworkResponse (storage : CacheStorage) (request : Request)
           (networkResponse : Response) : CacheStorage * Response :=
  if negb (status networkResponse =? 200)
     || isOpaque (type networkResponse)
     || String.prefix "chrome-extension://" (url request)
  then (storage, networkResponse)
  else (caches_put CACHE_NAME request networkResponse storage, networkResponse).

(** [fetch(request).then(...).catch(() => cachedResponse)]: the value the
    promise settles with may be [undefined]. *)
Definition fetchPromise (storage : CacheStorage) (request : Request)
           (cachedResponse : option Response) (network : Settled Response)
  : CacheStorage * Settled (option Response) :=
  match network with
  | Fulfilled networkResponse =>
      let (storage', r) := onNetworkResponse storage request networkResponse in
      (storage', Fulfilled (Some r))
  | Rejected => (storage, Fulfilled cachedResponse)
  end.

(** What the page that made the request observes. *)
Inductive Outcome :=
| NotIntercepted
| Responded (r : Response)
| NetworkError.

(** [event.respondWith(p)]: a promise that rejects, or that is fulfilled
    with something that is not a response, answers the request with a
    network error. *)
Definition respondWith (p : Settled (option Response)) : Outcome :=
  match p with
  | Fulfilled (Some r) => Responded r
  | Fulfilled None => NetworkError
  | Rejected => NetworkError
  end.

(** The [fetch] listener, given how the network fetch settles; it returns
    the cache storage once the background work is done. *)
Definition onFetch (storage : CacheStorage) (request : Request)
           (network : Settled Response) : CacheStorage * Outcome :=
  if negb (String.eqb (method request) "GET") then (storage, NotIntercepted)
  else
    let cachedResponse := caches_match storage request in
    let (storage', p) := fetchPromise storage request cachedResponse network in
    match cachedResponse with
    | Some r => (storage', respondWith (Fulfilled (Some r)))
    | None => (storage', respondWith p)
    end.


(** *** Install and activate *)

Definition APP_SHELL : list string :=
  ["/"; "/manifest.webmanifest"; "/favicon.ico";
   "/icons/icon-192.png"; "/icons/icon-512.png"].

Fixpoint caches_has (name : string) (storage : CacheStorage) : bool :=
  match storage with
  | [] => false
  | (n, _) :: storage' => String.eqb n name || caches_has name storage'
  end.

(** [caches.open(name)]: the cache is created, empty, when it does not
    exist. *)
Definition caches_open (name : string) (storage : CacheStorage) : CacheStorage :=
  if caches_has name storage then storage else storage ++ [(name, ∅)].

(** The responses [cache.addAll] accepts: an ok status other than 206, and
    not an error response. *)
Definition acceptable (r : Response) : bool :=
  (200 <=? status r) && (status r <=? 299) && negb (status r =? 206)
  && match type r with error => false | _ => true end.

(** The fetches of [cache.addAll]: all of them have to succeed. *)
Fixpoint fetchAll (network : string -> Settled Response) (urls : list string)
  : option (list (string * Response)) :=
  match urls with
  | [] => Some []
  | u :: urls' =>
      match network u with
      | Fulfilled r =>
          if acceptable r
          then option_map (cons (u, r)) (fetchAll network urls')
          else None
      | Rejected => None
      end
  end.

Definition cache_putAll (rs : list (string * Response)) (cache : Cache) : Cache :=
  fold_left (fun c ur => <[ fst ur := snd ur ]> c) rs cache.

Fixpoint caches_update (name : string) (f : Cache -> Cache)
         (storage : CacheStorage) : CacheStorage :=
  match storage with
  | [] => []
  | (n, cache) :: storage' =>
      if String.eqb n name then (n, f cache) :: storage'
      else (n, cache) :: caches_update name f storage'
  end.

(** The [install] listener, given how the network answers each URL: the
    cache storage afterwards, and whether [skipWaiting] was reached. *)
Definition onInstall (network : string -> Settled Response)
           (storage : CacheStorage) : CacheStorage * bool :=
  let storage1 := caches_open CACHE_NAME storage in
  match fetchAll network APP_SHELL with
  | Some rs => (caches_update CACHE_NAME (cache_putAll rs) storage1, true)
  | None => (storage1, false)
  end.

(** The [activate] listener: every cache with another name is deleted. *)
Definition onActivate (storage : CacheStorage) : CacheStorage :=
  List.filter (fun nc => String.eqb (fst nc) CACHE_NAME) storage.
End Sw.

(** ** A host for examples

    A browser whose local time zone is UTC, reading timestamps written
    [YYYY-MM-DDTHH:MM]; it serves to evaluate the page on concrete
    readings. *)

Module SampleHost.

Import Js.
Definition digitValue (c : ascii) : Z := Z.of_N (N_of_ascii c) - 48.

Fixpoint parseDigits (s : string) (acc : Z) : Z :=
  match s with
  | EmptyString => acc
  | String c s' => parseDigits s' (10 * acc + digitValue c)
  end.

Definition numberAt (s : string) (start n : nat) : Z :=
  parseDigits (substring start n s) 0.

(** Days since 1970-01-01 of a civil date (month from 1). *)
Definition daysFromCivil (y m d : Z) : Z :=
  let y' := if m <=? 2 then y - 1 else y in
  let era := y' / 400 in
  let yoe := y' - era * 400 in
  let doy := (153 * (if m <=? 2 then m + 9 else m - 3) + 2) / 5 + d - 1 in
  let doe := yoe * 365 + yoe / 4 - yoe / 100 + doy in
  era * 146097 + doe - 719468.

Definition parseLocal (s : string) : JsDate :=
  let y := numberAt s 0 4 in
  let mo := numberAt s 5 2 in
  let d := numberAt s 8 2 in
  let h := numberAt s 11 2 in
  let mi := numberAt s 14 2 in
  let t := ((daysFromCivil y mo d * 24 + h) * 60 + mi) * 60000 in
  mkJsDate t y (mo - 1) d h mi y (mo - 1) d h mi 0 0.

Definition monthName (m : Z) : string :=
  nth (Z.to_nat m)
      ["Jan"; "Feb"; "Mar"; "Apr"; "May"; "Jun";
       "Jul"; "Aug"; "Sep"; "Oct"; "Nov"; "Dec"] "".

Definition longDate (d : JsDate) : string :=
  (monthName (getMonth d) ++ " " ++ String_of_int (getDate d) ++ ", "
     ++ String_of_int (getFullYear d))%string.

Definition shortTime (d : JsDate) : string :=
  let h := getHours d in
  let h12 := if h mod 12 =? 0 then 12 else h mod 12 in
  let suffix := if 12 <=? h then " PM" else " AM" in
  (String_of_int h12 ++ ":" ++ pad2 (getMinutes d) ++ suffix)%string.

Definition monthDay (d : JsDate) : string :=
  (monthName (getMonth d) ++ " " ++ String_of_int (getDate d))%string.

(** The digits after the decimal point of a number in [[0, 1)]. *)
Fixpoint fractionDigits (fuel : nat) (r : Q) : string :=
  match fuel with
  | O => EmptyString
  | S f =>
      if Qeq_bool r 0 then EmptyString
      else let d := Qfloor (r * 10) in
           String (digitChar d) (fractionDigits f (r * 10 - inject_Z d)%Q)
  end.

Definition decimalString (q : Q) : string :=
  let a := Qabs q in
  let i := Qfloor a in
  let fr := fractionDigits 20 (a - inject_Z i)%Q in
  ((if Qle_bool 0 q then "" else "-") ++ String_of_int i
     ++ (if String.eqb fr "" then "" else "." ++ fr))%string.

#[export] Instance host : Host := {|
  newDate := parseLocal;
  toLocaleDateString := longDate;
  toLocaleTimeString := shortTime;
  formatMonthDay := monthDay;
  numberToString := decimalString
|}.

End SampleHost.

(** ** The vocabulary of the specification

    Notions the specification uses to describe the results; they are
    compared with what the code computes. *)

Module Spec.

Import Js Page.
#[local] Open Scope Q_scope.

Fixpoint Qsum (l : list Q) : Q :=
  match l with
  | [] => 0
  | x :: l' => x + Qsum l'
  end.

(** The mean of a list of numbers. *)
Definition mean (vs : list Q) : Q := Qsum vs / inject_Z (len vs).



Definition maximum (vs : list Q) : Q :=
  match vs with
  | [] => 0
  | v :: vs' => fold_left Qmax vs' v
  end.






Section FilterVocabulary.
Context {host : Host}.

(** [t] occurs in [s]. *)
Definition substringOf (t s : string) : Prop :=
  exists a b : string, s = (a ++ t ++ b)%string.

(** The local calendar date lies in the range; an empty bound is absent.
    Dates are compared as the page compares them, as strings
    [YYYY-MM-DD]. *)
Definition dateInRange (f : Filters) (e : Entry) : Prop :=
  (filterStartDate f = EmptyString
   \/ String.leb (filterStartDate f) (toInputDate (date e)) = true)
  /\ (filterEndDate f = EmptyString
      \/ String.leb (toInputDate (date e)) (filterEndDate f) = true).

Definition periodMatches (f : Filters) (e : Entry) : Prop :=
  filterPeriod f = None \/ filterPeriod f = Some (period e).

Definition categoryMatches (f : Filters) (e : Entry) : Prop :=
  filterCategory f = None
  \/ filterCategory f = Some (getReadingCategory (value e)).

(** An empty term matches everything; otherwise the term occurs in one of
    the fields, letter case ignored. *)
Definition termMatches (term : string) (e : Entry) : Prop :=
  term = EmptyString
  \/ exists field : string,
       In field (searchFields e)
       /\ substringOf (toLowerCase term) (toLowerCase field).



End FilterVocabulary.

(** The pages [1 .. k]. *)
Definition pageNumbers (k : Z) : list Z :=
  map Z.of_nat (seq 1 (Z.to_nat k)).

(** [ceil(n / 10)] on integers. *)
Definition ceilTenth (n : Z) : Z := (n + 9) / 10.

(** The number of pages for [n] readings: [max(1, ceil(n / 10))]. *)
Definition pageCount (n : Z) : Z := Z.max 1 (ceilTenth n).

(** [x] clamped into [[lo, hi]]. *)
Definition clampInto (lo hi x : Z) : Z := Z.max lo (Z.min x hi).
(** The current page is a page that exists. *)
Definition pageInRange (s : Pager) : Prop :=
  (1 <= currentPage s)%Z /\ (currentPage s <= totalPages (shown s))%Z.


Section ChartVocabulary.
Context {host : Host}.

(** The local calendar date of a reading. *)
Definition dayKey (e : Entry) : string := toInputDate (date e).

(** The values of the readings of one day and one period, in the order of
    the collection. *)
Definition dayValues (entries : list Entry) (key : string) (p : Period) : list Q :=
  map value
      (List.filter (fun e => String.eqb (dayKey e) key && Period_eqb (period e) p)
                   entries).

(** The mean rounded to one decimal; no value for no readings. *)
Definition meanRounded (vs : list Q) : option Q :=
  match vs with
  | [] => None
  | _ :: _ => Some (round1 (mean vs))
  end.

(** The point of a day. *)
Definition dayPoint (entries : list Entry) (key : string) : Chart.Point.ChartPoint :=
  Chart.Point.mkChartPoint
    (formatMonthDay (Chart.midnight key))
    (meanRounded (dayValues entries key Fasting))
    (meanRounded (dayValues entries key PreMeal))
    (meanRounded (dayValues entries key PostMeal)).




End ChartVocabulary.

(** The bucket of a day: its values by period. *)
Definition dayBucket {host : Host} (entries : list Entry) (key : string) : Chart.Bucket :=
  Chart.mkBucket (dayValues entries key Fasting)
                 (dayValues entries key PreMeal)
                 (dayValues entries key PostMeal).

(** What the buckets built from the readings [p] have to satisfy. *)
Definition bucketsOf {host : Host} (p : list Entry) (m : Chart.Buckets) : Prop :=
  List.NoDup (map fst m)
  /\ (forall k, In k (map fst m) <-> In k (map dayKey p))
  /\ (forall k b, In (k, b) m -> b = dayBucket p k).

(** *** The vocabulary of the CSV file *)

(** The last [k] decimal digits of [n]: a number written on [k] digits,
    padded with zeros. *)
Fixpoint fixedWidth (k : nat) (n : Z) : string :=
  match k with
  | O => EmptyString
  | S k' => (fixedWidth k' (n / 10) ++ String (digitChar (n mod 10)) EmptyString)%string
  end.












(** [k] zeros. *)
Fixpoint zeros (k : nat) : string :=
  match k with
  | O => EmptyString
  | S k' => String "0" (zeros k')
  end.



(** *** Vocabulary of the further properties *)

(** A local date whose year has four digits. *)
Definition validLocal (d : JsDate) : Prop :=
  ((1000 <= getFullYear d <= 9999) /\ (0 <= getMonth d <= 11)
   /\ (1 <= getDate d <= 31))%Z.

(** The order of the calendar on local dates: year, then month, then day. *)
Definition civilCompare (a b : JsDate) : comparison :=
  match (getFullYear a ?= getFullYear b)%Z with
  | Eq => match (getMonth a ?= getMonth b)%Z with
          | Eq => (getDate a ?= getDate b)%Z
          | c => c
          end
  | c => c
  end.

(** [g] asks no more than [f]: each of its filters is off or is the one of
    [f]. *)
Definition looser (g f : Filters) : Prop :=
  (trim (searchTerm g) = EmptyString \/ searchTerm g = searchTerm f)
  /\ (filterPeriod g = None \/ filterPeriod g = filterPeriod f)
  /\ (filterCategory g = None \/ filterCategory g = filterCategory f)
  /\ (filterStartDate g = EmptyString \/ filterStartDate g = filterStartDate f)
  /\ (filterEndDate g = EmptyString \/ filterEndDate g = filterEndDate f).

(** Reading a line of quoted fields back: outside a field, inside one, or
    just after a double quote met inside one. *)
Inductive Reading := Outside | Inside | AfterQuote.

Fixpoint readLine (st : Reading) (cur : string) (s : string) : option (list string) :=
  match s with
  | EmptyString =>
      match st with
      | AfterQuote => Some [cur]
      | _ => None
      end
  | String c s' =>
      match st with
      | Outside =>
          if Ascii.eqb c dquote then readLine Inside EmptyString s' else None
      | Inside =>
          if Ascii.eqb c dquote then readLine AfterQuote cur s'
          else readLine Inside (cur ++ String c EmptyString) s'
      | AfterQuote =>
          if Ascii.eqb c dquote
          then readLine Inside (cur ++ String dquote EmptyString) s'
          else if Ascii.eqb c ","
               then option_map (cons cur) (readLine Outside EmptyString s')
               else None
      end
  end.
End Spec.

(* ===================================================================== *)
(** * Properties *)
(* ===================================================================== *)

Import Js Page Spec.

(** ** Reading category *)

Lemma Qltb_lt (x y : Q) : Qltb x y = true <-> (x < y)%Q.
Proof.
  unfold Qltb. rewrite negb_true_iff.
  split.
  - intros H. apply Qnot_le_lt. intros Hle.
    apply Qle_bool_iff in Hle. congruence.
  - intros H. destruct (Qle_bool y x) eqn:E; [|reflexivity].
    apply Qle_bool_iff in E. exfalso. apply (Qlt_not_le _ _ H E).
Qed.

Lemma Qltb_ge (x y : Q) : Qltb x y = false <-> (y <= x)%Q.
Proof.
  unfold Qltb. rewrite negb_false_iff. apply Qle_bool_iff.
Qed.

(** C8: the category of a value is [low] exactly below 4.4, [high]
    exactly above 7.8 and [good] otherwise; 4.4 and 7.8 are [good], 4.3 is
    [low] and 7.9 is [high]. *)
Theorem getReadingCategory_thresholds :
  (forall v : Q,
      (getReadingCategory v = low <-> (v < 44 # 10)%Q) /\
      (getReadingCategory v = high <-> (78 # 10 < v)%Q) /\
      (getReadingCategory v = good <-> ((44 # 10 <= v)%Q /\ (v <= 78 # 10)%Q))) /\
  getReadingCategory (44 # 10) = good /\
  getReadingCategory (78 # 10) = good /\
  getReadingCategory (43 # 10) = low /\
  getReadingCategory (79 # 10) = high.
Proof.
  split; [|repeat split; reflexivity].
  intros v. unfold getReadingCategory, TARGET_RANGE.lowUpper, TARGET_RANGE.highLower.
  destruct (Qltb v (44 # 10)) eqn:Hlo.
  - apply Qltb_lt in Hlo.
    repeat split; try discriminate; try (intros; assumption).
    + intros Hhi. exfalso.
      apply (Qlt_irrefl v). eapply Qlt_trans; [exact Hlo|].
      eapply Qlt_trans; [|exact Hhi]. reflexivity.
    + intros [Hge _]. exfalso. apply (Qlt_not_le _ _ Hlo Hge).
  - apply Qltb_ge in Hlo.
    destruct (Qltb (78 # 10) v) eqn:Hhi.
    + apply Qltb_lt in Hhi.
      repeat split; try discriminate; try (intros; assumption).
      * intros Hlt. exfalso. apply (Qlt_not_le _ _ Hlt Hlo).
      * intros [_ Hle]. exfalso. apply (Qlt_not_le _ _ Hhi Hle).
    + apply Qltb_ge in Hhi.
      repeat split; try discriminate; try (intros; assumption).
      * intros Hlt. exfalso. apply (Qlt_not_le _ _ Hlt Hlo).
      * intros Hlt. exfalso. apply (Qlt_not_le _ _ Hlt Hhi).
Qed.

(** ** Summary statistics *)

(** C9: on the empty collection the summary is all zeros. *)
Theorem averages_empty : averages [] = mkSummary 0 0 0.
Proof. reflexivity. Qed.

(** *** Sums and means over [Q] *)

#[local] Open Scope Q_scope.

(** The three readings 5.7, 7.7 and 6.6 have the average 6.7, the recent
    average 6.7 and the trend 0. *)
Example averages_three_readings :
  let s := averages (firstn 3 initialEntries) in
  average s == 67 # 10 /\ recent s == 67 # 10 /\ trend s == 0.
Proof. cbv zeta. repeat split; vm_compute; reflexivity. Qed.

Lemma sum_by_acc {A} (f : A -> Q) (l : list A) (acc : Q) :
  fold_left (fun a x => a + f x) l acc == acc + Qsum (map f l).
Proof.
  revert acc. induction l as [|x l IH]; intros acc; simpl.
  - ring.
  - rewrite IH. ring.
Qed.

Lemma sum_by_Qsum {A} (f : A -> Q) (l : list A) :
  sum_by f l == Qsum (map f l).
Proof. unfold sum_by. rewrite sum_by_acc. ring. Qed.


Lemma len_cons {A} (x : A) l : len (x :: l) = (len l + 1)%Z.
Proof. unfold len. simpl List.length. lia. Qed.

Lemma len_nonneg {A} (l : list A) : (0 <= len l)%Z.
Proof. unfold len. lia. Qed.

Lemma len_map {A B} (f : A -> B) l : len (map f l) = len l.
Proof. unfold len. now rewrite length_map. Qed.



(** *** Rounding to one decimal *)


Lemma round1_mono (x y : Q) : x <= y -> round1 x <= round1 y.
Proof.
  intros H. unfold round1, Math_round.
  apply Qmult_le_compat_r; [|discriminate].
  rewrite <- Zle_Qle. apply Qfloor_resp_le. lra.
Qed.


Lemma round1_Qeq (x y : Q) : x == y -> round1 x == round1 y.
Proof.
  intros H. apply Qle_antisym; apply round1_mono; rewrite H; apply Qle_refl.
Qed.

(** *** [slice] on indices that are not negative *)

Lemma slice_nonneg {A} (l : list A) (a b : Z) :
  (0 <= a <= b)%Z ->
  slice l a b = firstn (Z.to_nat (b - a)) (skipn (Z.to_nat a) l).
Proof.
  intros Hab. unfold slice, relIndex, len.
  destruct (Z.ltb_spec a 0); [lia|]. destruct (Z.ltb_spec b 0); [lia|].
  destruct (Z.le_gt_cases (Z.of_nat (List.length l)) a) as [Hge|Hlt].
  - rewrite (skipn_all2 l (n := Z.to_nat a)) by lia.
    rewrite (skipn_all2 l) by lia. now rewrite !firstn_nil.
  - rewrite (Z.min_l a) by lia.
    destruct (Z.le_gt_cases b (Z.of_nat (List.length l))).
    + now rewrite Z.min_l by lia.
    + rewrite Z.min_r by lia.
      rewrite !firstn_all2; try reflexivity; rewrite length_skipn; lia.
Qed.

Lemma slice_prefix {A} (l : list A) (k : Z) :
  (0 <= k)%Z -> slice l 0 (Z.min k (len l)) = firstn (Z.to_nat k) l.
Proof.
  intros Hk. pose proof (len_nonneg l) as Hl.
  rewrite slice_nonneg by lia. rewrite Z.sub_0_r.
  change (skipn (Z.to_nat 0) l) with l.
  unfold len in *.
  destruct (Z.le_gt_cases k (Z.of_nat (List.length l))).
  - now rewrite Z.min_l by lia.
  - rewrite Z.min_r by lia. rewrite !firstn_all2; try reflexivity; lia.
Qed.

(** *** The order of timestamps and the sort *)

Lemma ltb_leb (a b : string) : String.ltb a b = negb (String.leb b a).
Proof.
  unfold String.ltb, String.leb. rewrite (String.compare_antisym a b).
  now destruct (String.compare b a).
Qed.


(** *** The recent average *)

Lemma averages_recent_prefix (entries : list Entry) :
  recent (averages entries) == round1 (mean (map value (firstn 3 entries))).
Proof.
  destruct entries as [|e es]; [vm_compute; reflexivity|].
  unfold averages.
  assert (Hlen : (0 < len (e :: es))%Z)
    by (rewrite len_cons; pose proof (len_nonneg es); lia).
  destruct (Z.eqb_spec (len (e :: es)) 0) as [E|_]; [lia|].
  cbn [recent]. apply round1_Qeq.
  rewrite slice_prefix by lia. change (Z.to_nat 3) with 3%nat.
  set (r := firstn 3 (e :: es)).
  assert (Hr : (0 < len r)%Z).
  { subst r. cbn [firstn]. rewrite len_cons. pose proof (len_nonneg (firstn 2 es)). lia. }
  unfold or_num. destruct (Z.eqb_spec (len r) 0) as [E|_]; [lia|].
  unfold mean. rewrite sum_by_Qsum, len_map. reflexivity.
Qed.




(** *** The smallest and the largest value *)










(** *** The three outputs on a collection that is not empty *)

Lemma averages_nonempty (entries : list Entry) :
  entries <> [] ->
  let vs := map value entries in
  let rvs := map value (firstn 3 entries) in
  average (averages entries) == round1 (mean vs)
  /\ recent (averages entries) == round1 (mean rvs)
  /\ trend (averages entries) == round1 (mean rvs - mean vs).
Proof.
  intros Hne vs rvs. split; [|split; [apply averages_recent_prefix|]].
  all: destruct entries as [|e es]; [congruence|].
  all: assert (Hlen : (0 < len (e :: es))%Z)
         by (rewrite len_cons; pose proof (len_nonneg es); lia).
  all: unfold averages;
       destruct (Z.eqb_spec (len (e :: es)) 0) as [E|_]; [lia|].
  - cbn [average]. apply round1_Qeq. unfold mean.
    rewrite sum_by_Qsum, map_id. reflexivity.
  - cbn [trend]. apply round1_Qeq.
    rewrite slice_prefix by lia. change (Z.to_nat 3) with 3%nat.
    assert (Hr : (0 < len (firstn 3 (e :: es)))%Z).
    { cbn [firstn]. rewrite len_cons. pose proof (len_nonneg (firstn 2 es)). lia. }
    unfold or_num.
    destruct (Z.eqb_spec (len (firstn 3 (e :: es))) 0) as [E|_]; [lia|].
    unfold mean. subst vs rvs.
    rewrite !sum_by_Qsum, map_id, !len_map. reflexivity.
Qed.




(** Rounding alone can leave the range as well: one reading of 5.55 has
    the average 5.6. *)
Example averages_rounding_exceeds_maximum :
  let entries := [ mkEntry "1" (555 # 100) "2024-05-17T07:45" Fasting None ] in
  average (averages entries) == 56 # 10
  /\ maximum (map value entries) == 555 # 100.
Proof. cbv zeta. split; vm_compute; reflexivity. Qed.

(** ** History filter *)

(** *** Substrings *)

Lemma prefix_app (t s : string) :
  String.prefix t s = true <-> exists b : string, s = (t ++ b)%string.
Proof.
  revert s. induction t as [|c t IH]; intros s.
  - split; [intros _; now exists s | intros _; now destruct s].
  - destruct s as [|d s]; cbn [String.prefix].
    + split; [discriminate | intros [b Hb]; discriminate].
    + destruct (ascii_dec c d) as [->|Hne].
      * rewrite IH. split; intros [b Hb]; exists b.
        -- now rewrite Hb.
        -- cbn in Hb. now injection Hb.
      * split; [discriminate|]. intros [b Hb]. cbn in Hb. injection Hb. congruence.
Qed.

Lemma includes_substringOf (s t : string) :
  includes s t = true <-> substringOf t s.
Proof.
  unfold substringOf. induction s as [|c s IH]; cbn [includes].
  - rewrite orb_false_r, prefix_app. split.
    + intros [b Hb]. now exists EmptyString, b.
    + intros (a & b & H). destruct a; [now exists b | discriminate].
  - rewrite orb_true_iff, prefix_app, IH. split.
    + intros [[b Hb] | (a & b & H)].
      * now exists EmptyString, b.
      * exists (String c a), b. now rewrite H.
    + intros (a & b & H). destruct a as [|c' a].
      * left. now exists b.
      * right. cbn in H. injection H as _ H. now exists a, b.
Qed.

Lemma truthy_false (s : string) : truthy s = false <-> s = EmptyString.
Proof.
  unfold truthy. rewrite negb_false_iff. apply String.eqb_eq.
Qed.

Lemma toLowerCase_empty (s : string) :
  toLowerCase s = EmptyString <-> s = EmptyString.
Proof. destruct s; cbn; split; congruence. Qed.

Lemma Period_eqb_eq (p q : Period) : Period_eqb p q = true <-> p = q.
Proof. destruct p, q; cbn; split; congruence. Qed.

Lemma ReadingCategory_eqb_eq (c d : ReadingCategory) :
  ReadingCategory_eqb c d = true <-> c = d.
Proof. destruct c, d; cbn; split; congruence. Qed.

(** *** [Array.prototype.filter] *)

Lemma filter_sublist {A} (p : A -> bool) (l : list A) :
  sublist (List.filter p l) l.
Proof.
  induction l as [|x l IH]; cbn [List.filter]; [constructor|].
  destruct (p x); [now apply sublist_skip | now apply sublist_cons].
Qed.

Lemma filter_idempotent {A} (p : A -> bool) (l : list A) :
  List.filter p (List.filter p l) = List.filter p l.
Proof.
  induction l as [|x l IH]; cbn [List.filter]; [reflexivity|].
  destruct (p x) eqn:E; [|exact IH].
  cbn [List.filter]. now rewrite E, IH.
Qed.

Lemma lower_bound_met (bound d : string) :
  truthy bound && String.ltb d bound = false
  <-> bound = EmptyString \/ String.leb bound d = true.
Proof.
  rewrite andb_false_iff, truthy_false, ltb_leb, negb_false_iff. tauto.
Qed.

Lemma upper_bound_met (bound d : string) :
  truthy bound && String.ltb bound d = false
  <-> bound = EmptyString \/ String.leb d bound = true.
Proof.
  rewrite andb_false_iff, truthy_false, ltb_leb, negb_false_iff. tauto.
Qed.

Lemma period_filter_met (fp : option Period) (p : Period) :
  match fp with Some q => negb (Period_eqb p q) | None => false end = false
  <-> fp = None \/ fp = Some p.
Proof.
  destruct fp as [q|]; [|tauto].
  rewrite negb_false_iff, Period_eqb_eq. split.
  - intros ->. now right.
  - intros [H|H]; congruence.
Qed.

Lemma category_filter_met (fc : option ReadingCategory) (c : ReadingCategory) :
  match fc with Some d => negb (ReadingCategory_eqb c d) | None => false end = false
  <-> fc = None \/ fc = Some c.
Proof.
  destruct fc as [d|]; [|tauto].
  rewrite negb_false_iff, ReadingCategory_eqb_eq. split.
  - intros ->. now right.
  - intros [H|H]; congruence.
Qed.

Section Filter.
Context {host : Host}.

Lemma term_met (t : string) (e : Entry) :
  negb (truthy (toLowerCase t)) = true
  \/ existsb (fun field => includes (toLowerCase field) (toLowerCase t))
             (searchFields e) = true
  <-> termMatches t e.
Proof.
  unfold termMatches.
  rewrite negb_true_iff, truthy_false, toLowerCase_empty, existsb_exists.
  split; (intros [H|(field & Hin & Hs)]; [now left | right; exists field]).
  - split; [exact Hin | now apply includes_substringOf].
  - split; [exact Hin | now apply includes_substringOf].
Qed.

(** The callback of the filter says yes exactly on the readings that
    satisfy the four predicates, for the lower-cased term [t]. *)
Lemma keepEntry_satisfies (t : string) (f : Filters) (e : Entry) :
  keepEntry (toLowerCase t) f e = true <->
  dateInRange f e /\ periodMatches f e /\ categoryMatches f e /\ termMatches t e.
Proof.
  unfold keepEntry, dateInRange, periodMatches, categoryMatches.
  rewrite <- term_met, <- lower_bound_met, <- upper_bound_met.
  rewrite <- (period_filter_met (filterPeriod f) (period e)).
  rewrite <- (category_filter_met (filterCategory f) (getReadingCategory (value e))).
  destruct (truthy (filterStartDate f) && _), (truthy (filterEndDate f) && _),
    (match filterPeriod f with Some _ => _ | None => _ end),
    (match filterCategory f with Some _ => _ | None => _ end),
    (negb (truthy (toLowerCase t))), (existsb _ _);
    intuition congruence.
Qed.


(** C10: the output of the filter is a sublist of the input, in the same
    order, so every reading of the output is a reading of the input; and
    filtering the output again changes nothing. *)
Theorem filteredEntries_sublist_idempotent (entries : list Entry) (f : Filters) :
  sublist (filteredEntries entries f) entries
  /\ (forall e, In e (filteredEntries entries f) -> In e entries)
  /\ filteredEntries (filteredEntries entries f) f = filteredEntries entries f.
Proof.
  unfold filteredEntries. split; [apply filter_sublist|]. split.
  - intros e He. now apply List.filter_In in He.
  - apply filter_idempotent.
Qed.

End Filter.


(** ** Pages *)

Lemma maxPage_pageCount (n : Z) : (0 <= n)%Z -> maxPage n = pageCount n.
Proof.
  intros Hn. unfold maxPage, pageCount, ceilTenth, Math_ceil, Qceiling, PAGE_SIZE, or_num.
  assert (E : Qfloor (- (inject_Z n / inject_Z 10)) = (- n / 10)%Z).
  { rewrite Zdiv_Qdiv. apply Qfloor_comp. rewrite inject_Z_opp. field. }
  rewrite E.
  destruct (Z.eqb_spec (- (- n / 10)) 0); Z.to_euclidean_division_equations; lia.
Qed.

Lemma totalPages_pageCount (l : list Entry) : totalPages l = pageCount (len l).
Proof. apply maxPage_pageCount, len_nonneg. Qed.

Lemma pageCount_covers (n : Z) : (1 <= pageCount n)%Z /\ (n <= 10 * pageCount n)%Z.
Proof. unfold pageCount, ceilTenth. Z.to_euclidean_division_equations; lia. Qed.

(** [ceilTenth n] is the least integer not below [n / 10]. *)
Lemma ceilTenth_least (n : Z) :
  (n <= 10 * ceilTenth n)%Z /\ (10 * (ceilTenth n - 1) < n)%Z.
Proof. unfold ceilTenth. Z.to_euclidean_division_equations; lia. Qed.

Lemma paginatedEntries_window (l : list Entry) (i : nat) :
  paginatedEntries l (Z.of_nat (S i)) = firstn 10 (skipn (10 * i) l).
Proof.
  unfold paginatedEntries, PAGE_SIZE. rewrite slice_nonneg by lia.
  f_equal; [|f_equal]; lia.
Qed.

Lemma windows_concat (l : list Entry) (m : nat) :
  concat (map (fun i => firstn 10 (skipn (10 * i) l)) (seq 0 m))
  = firstn (10 * m) l.
Proof.
  induction m as [|m IH].
  - now rewrite Nat.mul_0_r.
  - rewrite seq_S, map_app, concat_app, IH. cbn [map concat Nat.add].
    rewrite app_nil_r, take_take_drop. f_equal. lia.
Qed.

Lemma pages_concat (l : list Entry) :
  concat (map (paginatedEntries l) (pageNumbers (totalPages l))) = l.
Proof.
  unfold pageNumbers. rewrite <- seq_shift, !map_map.
  rewrite (map_ext _ (fun i => firstn 10 (skipn (10 * i) l)))
    by (intros i; apply paginatedEntries_window).
  rewrite windows_concat. apply firstn_all2.
  rewrite totalPages_pageCount.
  destruct (pageCount_covers (len l)) as [H1 H2]. unfold len in *. lia.
Qed.

Lemma totalPages_pos (l : list Entry) : (1 <= totalPages l)%Z.
Proof. rewrite totalPages_pageCount. apply pageCount_covers. Qed.

Lemma afterRender_inRange (old : Pager) (l : list Entry) (p : Z) :
  (1 <= p)%Z ->
  (len l = len (shown old) -> (p <= totalPages (shown old))%Z) ->
  pageInRange (afterRender old (mkPager l p))
  /\ shown (afterRender old (mkPager l p)) = l
  /\ currentPage (afterRender old (mkPager l p)) = clampInto 1 (totalPages l) p.
Proof.
  intros Hp Hsame. pose proof (totalPages_pos l) as Ht.
  unfold afterRender, pageInRange, clampInto, clampPage. cbn [shown currentPage].
  fold (totalPages l).
  destruct (Z.eqb_spec (len l) (len (shown old))) as [E|E]; cbn [shown currentPage].
  - specialize (Hsame E). unfold totalPages in *. rewrite <- E in Hsame.
    split; [lia|]. split; [reflexivity | lia].
  - split; [lia|]. split; [reflexivity | lia].
Qed.

Lemma pagerStep_inRange (s : Pager) (ev : PagerEvent) :
  pageInRange s -> pageInRange (pagerStep s ev).
Proof.
  intros [H1 H2]. destruct ev as [l|l| |]; cbn [pagerStep].
  - apply afterRender_inRange; [lia|]. intros _. apply totalPages_pos.
  - apply afterRender_inRange; [lia|]. now intros _.
  - split; cbn [shown currentPage]; lia.
  - split; cbn [shown currentPage]; pose proof (totalPages_pos (shown s)); lia.
Qed.

Lemma pagerRun_inRange (s : Pager) (evs : list PagerEvent) :
  pageInRange s -> pageInRange (pagerRun s evs).
Proof.
  revert s. induction evs as [|ev evs IH]; intros s Hs; [exact Hs|].
  cbn [pagerRun fold_left]. apply IH. now apply pagerStep_inRange.
Qed.

Lemma initialPager_inRange (l : list Entry) : pageInRange (initialPager l).
Proof.
  pose proof (totalPages_pos l). unfold initialPager, pageInRange, clampPage.
  cbn [shown currentPage]. fold (totalPages l). lia.
Qed.

(** C4: in every state the history view can reach, the number of pages is
    [max(1, ceil(n / 10))] for the [n] readings shown ([ceilTenth n] being
    the least integer not below [n / 10]), the slices of the
    pages [1 ..] up to that number, put end to end, are the filtered list
    itself, the current page is one of these pages, and a change of the
    filtered list leaves the current page clamped into that range. *)
Theorem pagination_invariant (filtered0 : list Entry) (evs : list PagerEvent) :
  let s := pagerRun (initialPager filtered0) evs in
  (totalPages (shown s) = Z.max 1 (ceilTenth (len (shown s)))
   /\ (len (shown s) <= 10 * ceilTenth (len (shown s)))%Z
   /\ (10 * (ceilTenth (len (shown s)) - 1) < len (shown s))%Z)
  /\ concat (map (paginatedEntries (shown s)) (pageNumbers (totalPages (shown s))))
     = shown s
  /\ ((1 <= currentPage s)%Z /\ (currentPage s <= totalPages (shown s))%Z)
  /\ (forall filtered : list Entry,
        currentPage (pagerStep s (EntriesChanged filtered))
        = clampInto 1 (totalPages filtered) (currentPage s)).
Proof.
  intros s.
  assert (Hs : pageInRange s) by apply pagerRun_inRange, initialPager_inRange.
  split; [split; [apply totalPages_pageCount | apply ceilTenth_least]|].
  split; [apply pages_concat|].
  split; [exact Hs|]. intros l. destruct Hs as [H1 H2].
  cbn [pagerStep]. apply afterRender_inRange; [exact H1|].
  intros E. exact H2.
Qed.

(** ** The offline cache worker *)

(** C7: for a GET request the answer is the cached response when there is
    one, whatever the network does; without one it is the response of the
    network when the fetch succeeds, and a network error, not a response,
    when the fetch fails. *)
Theorem onFetch_answer
        (storage : Sw.CacheStorage) (request : Sw.Request)
        (network : Sw.Settled Sw.Response) :
  Sw.method request = "GET"%string ->
  snd (Sw.onFetch storage request network)
  = match Sw.caches_match storage request, network with
    | Some cached, _ => Sw.Responded cached
    | None, Sw.Fulfilled networkResponse => Sw.Responded networkResponse
    | None, Sw.Rejected => Sw.NetworkError
    end.
Proof.
  intros Hget. unfold Sw.onFetch. rewrite Hget. cbn [String.eqb negb].
  change (("GET" =? "GET")%string) with true. cbn [negb].
  destruct (Sw.caches_match storage request) as [cached|], network as [r|];
    cbn [Sw.fetchPromise]; try reflexivity.
  all: unfold Sw.onNetworkResponse;
       destruct (negb _ || _ || _); reflexivity.
Qed.

Lemma onFetch_answer_witness :
  let cached := Sw.mkResponse 200 Sw.basic "shell" in
  let storage := [(Sw.CACHE_NAME, ({[ "/"%string := cached ]} : Sw.Cache))] in
  let request := Sw.mkRequest "GET" "/" in
  Sw.method request = "GET"%string
  /\ snd (Sw.onFetch storage request Sw.Rejected) = Sw.Responded cached
  /\ snd (Sw.onFetch [] request Sw.Rejected) = Sw.NetworkError.
Proof.
  cbv zeta. split; [reflexivity|]. split.
  - rewrite onFetch_answer by reflexivity. reflexivity.
  - rewrite onFetch_answer by reflexivity. reflexivity.
Defined.

(** ** Sorting with a comparator *)

Section SortBy.
Context {A : Type} (cmp : A -> A -> Z) (R : A -> A -> Prop).
Hypothesis cmp_pos : forall x y, (0 <? cmp x y) = true -> R y x.
Hypothesis cmp_nonpos : forall x y, (0 <? cmp x y) = false -> R x y.

Lemma insert_by_Permutation (x : A) (l : list A) :
  Permutation (insert_by cmp x l) (x :: l).
Proof.
  induction l as [|y l IH]; cbn [insert_by]; [reflexivity|].
  destruct (0 <? cmp x y); [|reflexivity].
  rewrite IH. apply perm_swap.
Qed.

Lemma sort_by_Permutation (l : list A) : Permutation (sort_by cmp l) l.
Proof.
  induction l as [|x l IH]; cbn [sort_by]; [reflexivity|].
  rewrite insert_by_Permutation. now apply perm_skip.
Qed.

Lemma insert_by_HdRel (a x : A) (l : list A) :
  R a x -> HdRel R a l -> HdRel R a (insert_by cmp x l).
Proof.
  intros Hax Hal. destruct l as [|y l]; cbn [insert_by]; [now constructor|].
  destruct (0 <? cmp x y); constructor; [now inversion Hal | exact Hax].
Qed.

Lemma insert_by_Sorted (x : A) (l : list A) :
  Sorted R l -> Sorted R (insert_by cmp x l).
Proof.
  induction 1 as [|y l Hs IH Hy]; cbn [insert_by]; [repeat constructor|].
  destruct (0 <? cmp x y) eqn:E.
  - constructor; [exact IH|]. apply insert_by_HdRel; [now apply cmp_pos | exact Hy].
  - constructor; [now constructor|]. constructor. now apply cmp_nonpos.
Qed.

Lemma sort_by_Sorted (l : list A) : Sorted R (sort_by cmp l).
Proof.
  induction l as [|x l IH]; cbn [sort_by]; [constructor|].
  now apply insert_by_Sorted.
Qed.

End SortBy.

(** ** The chart *)

Lemma round1_eq (x y : Q) : x == y -> round1 x = round1 y.
Proof.
  intros H. unfold round1, Math_round. do 2 f_equal.
  apply Qfloor_comp. now rewrite H.
Qed.

Lemma average_meanRounded (vs : list Q) : Chart.average vs = meanRounded vs.
Proof.
  unfold Chart.average. destruct vs as [|v vs]; [reflexivity|].
  destruct (Z.eqb_spec (len (v :: vs)) 0) as [E|_].
  - rewrite len_cons in E. pose proof (len_nonneg vs). lia.
  - cbn [meanRounded]. f_equal. apply round1_eq. unfold mean.
    now rewrite sum_by_Qsum, map_id.
Qed.

Lemma slice_from_last {A} (l : list A) (n : Z) :
  (0 < n)%Z -> slice_from l (- n) = skipn (List.length l - Z.to_nat n) l.
Proof.
  intros Hn. unfold slice_from, slice, relIndex, len.
  destruct (Z.ltb_spec (- n) 0); [|lia].
  destruct (Z.ltb_spec (Z.of_nat (List.length l)) 0); [lia|].
  rewrite Z.min_id.
  replace (Z.to_nat (Z.max (Z.of_nat (List.length l) + - n) 0))
    with (List.length l - Z.to_nat n)%nat by lia.
  apply firstn_all2. rewrite length_skipn. lia.
Qed.

Lemma StronglySorted_app_inv {A} (R : A -> A -> Prop) (l1 l2 : list A) :
  StronglySorted R (l1 ++ l2) ->
  StronglySorted R l2 /\ (forall a b, In a l1 -> In b l2 -> R a b).
Proof.
  induction l1 as [|x l1 IH]; cbn [app]; intros H.
  - split; [exact H | intros a b []].
  - inversion H as [|? ? Hs Hx]; subst. destruct (IH Hs) as [H2 Hab].
    split; [exact H2|]. intros a b [<-|Ha] Hb.
    + rewrite List.Forall_forall in Hx. apply Hx, in_or_app. now right.
    + now apply Hab.
Qed.


Section ChartFacts.
Context {host : Host}.

Lemma has_In (key : string) (m : Chart.Buckets) :
  Chart.has key m = true <-> In key (map fst m).
Proof.
  induction m as [|[k b] m IH]; cbn [Chart.has map In fst]; [split; [discriminate | tauto]|].
  rewrite orb_true_iff, String.eqb_eq, IH. reflexivity.
Qed.

Lemma update_keys (key : string) (f : Chart.Bucket -> Chart.Bucket) (m : Chart.Buckets) :
  map fst (Chart.update key f m) = map fst m.
Proof.
  induction m as [|[k b] m IH]; cbn [Chart.update]; [reflexivity|].
  destruct (String.eqb k key); cbn [map fst]; [reflexivity | now rewrite IH].
Qed.

Lemma update_In (key : string) (f : Chart.Bucket -> Chart.Bucket)
      (m : Chart.Buckets) (k : string) (b : Chart.Bucket) :
  List.NoDup (map fst m) ->
  In (k, b) (Chart.update key f m) ->
  (k <> key /\ In (k, b) m) \/ (k = key /\ exists b0, In (key, b0) m /\ b = f b0).
Proof.
  induction m as [|[k0 b0] m IH]; cbn [Chart.update map fst]; [intros _ []|].
  intros Hnd. apply List.NoDup_cons_iff in Hnd as [Hk0 Hnd].
  destruct (String.eqb_spec k0 key) as [->|Hne]; cbn [In].
  - intros [E|Hin].
    + injection E as <- <-. right. split; [reflexivity|]. exists b0. split; [now left | reflexivity].
    + left. split; [|now right]. intros ->. apply Hk0.
      apply in_map_iff. now exists (key, b).
  - intros [E|Hin].
    + injection E as <- <-. left. split; [exact Hne | now left].
    + destruct (IH Hnd Hin) as [[H1 H2] | (H1 & b1 & H2 & H3)].
      * left. split; [exact H1 | now right].
      * right. split; [exact H1|]. exists b1. split; [now right | exact H3].
Qed.

Lemma dayValues_snoc (p : list Entry) (e : Entry) (k : string) (q : Period) :
  dayValues (p ++ [e]) k q
  = dayValues p k q
      ++ (if String.eqb (dayKey e) k && Period_eqb (period e) q then [value e] else []).
Proof.
  unfold dayValues. rewrite List.filter_app, map_app. cbn [List.filter].
  now destruct (String.eqb (dayKey e) k && Period_eqb (period e) q).
Qed.

Lemma dayValues_absent (p : list Entry) (k : string) (q : Period) :
  ~ In k (map dayKey p) -> dayValues p k q = [].
Proof.
  unfold dayValues. induction p as [|e p IH]; cbn [List.filter map In]; [reflexivity|].
  intros Hk. destruct (String.eqb_spec (dayKey e) k) as [E|_]; [tauto|].
  cbn [andb]. apply IH. tauto.
Qed.

Lemma dayBucket_other (p : list Entry) (e : Entry) (k : string) :
  k <> dayKey e -> dayBucket (p ++ [e]) k = dayBucket p k.
Proof.
  intros Hne. unfold dayBucket. rewrite !dayValues_snoc.
  destruct (String.eqb_spec (dayKey e) k) as [E|_]; [congruence|].
  cbn [andb]. now rewrite !app_nil_r.
Qed.

Lemma dayBucket_push (p : list Entry) (e : Entry) :
  Chart.push e (dayBucket p (dayKey e)) = dayBucket (p ++ [e]) (dayKey e).
Proof.
  unfold dayBucket, Chart.push. rewrite !dayValues_snoc, String.eqb_refl.
  destruct (period e); cbn; now rewrite !app_nil_r.
Qed.

Lemma addEntry_bucketsOf (p : list Entry) (m : Chart.Buckets) (e : Entry) :
  bucketsOf p m -> bucketsOf (p ++ [e]) (Chart.addEntry m e).
Proof.
  intros (Hnd & Hkeys & Hval). unfold Chart.addEntry. fold (dayKey e).
  set (key := dayKey e).
  assert (H1 : bucketsOf p (Chart.ensureBucket key m)
               \/ (~ In key (map dayKey p)
                   /\ Chart.ensureBucket key m = m ++ [(key, Chart.mkBucket [] [] [])])).
  { unfold Chart.ensureBucket. destruct (Chart.has key m) eqn:Hhas.
    - left. split; [exact Hnd|]. split; [exact Hkeys | exact Hval].
    - right. split; [|reflexivity]. rewrite <- Hkeys, <- has_In. congruence. }
  assert (Hnd1 : List.NoDup (map fst (Chart.ensureBucket key m))).
  { destruct H1 as [(H & _) | [Hnew ->]]; [exact H|].
    rewrite map_app. cbn [map fst].
    apply List.NoDup_app; [exact Hnd | repeat constructor; intros [] |].
    intros k Hk [<-|[]]. apply Hnew. now apply Hkeys. }
  assert (Hkeys1 : forall k, In k (map fst (Chart.ensureBucket key m))
                             <-> In k (map dayKey (p ++ [e]))).
  { intros k. rewrite map_app, in_app_iff. cbn [map In]. fold key.
    destruct H1 as [(_ & H & _) | [Hnew ->]].
    - rewrite H. split; [tauto|]. intros [Hk|[<-|[]]]; [exact Hk|].
      apply H. unfold Chart.ensureBucket.
      destruct (Chart.has key m) eqn:Hhas; [now apply has_In|].
      unfold Chart.set_new. rewrite map_app. apply in_or_app. right. now left.
    - rewrite map_app, in_app_iff, Hkeys. cbn [map fst In]. tauto. }
  assert (Hval1 : forall k b, In (k, b) (Chart.ensureBucket key m) -> b = dayBucket p k).
  { destruct H1 as [(_ & _ & H) | [Hnew ->]]; [exact H|].
    intros k b Hin. apply in_app_or in Hin as [Hin|[E|[]]]; [now apply Hval|].
    injection E as <- <-. unfold dayBucket. now rewrite !dayValues_absent. }
  split; [now rewrite update_keys|]. split.
  - intros k. now rewrite update_keys.
  - intros k b Hin.
    destruct (update_In _ _ _ _ _ Hnd1 Hin) as [[Hne Hin'] | (-> & b0 & Hin' & ->)].
    + rewrite dayBucket_other by exact Hne. now apply Hval1.
    + rewrite (Hval1 _ _ Hin'). apply dayBucket_push.
Qed.

Lemma fold_addEntry_bucketsOf (es p : list Entry) (m : Chart.Buckets) :
  bucketsOf p m -> bucketsOf (p ++ es) (fold_left Chart.addEntry es m).
Proof.
  revert p m. induction es as [|e es IH]; intros p m H; cbn [fold_left].
  - now rewrite app_nil_r.
  - replace (p ++ e :: es) with ((p ++ [e]) ++ es) by now rewrite <- app_assoc.
    apply IH. now apply addEntry_bucketsOf.
Qed.

Lemma buildBuckets_bucketsOf (entries : list Entry) :
  bucketsOf entries (Chart.buildBuckets entries).
Proof.
  apply (fold_addEntry_bucketsOf entries [] []).
  split; [constructor|]. split; [reflexivity | intros k b []].
Qed.

End ChartFacts.

Section ChartTheorem.
Context {host : Host}.


Lemma toPoint_dayPoint (entries : list Entry) (k : string) (b : Chart.Bucket) :
  b = dayBucket entries k -> Chart.toPoint (k, b) = dayPoint entries k.
Proof.
  intros ->. unfold Chart.toPoint, dayPoint, dayBucket.
  cbn [Chart.fasting Chart.preMeal Chart.postMeal].
  now rewrite !average_meanRounded.
Qed.

Lemma chartData_toPoint (entries : list Entry) :
  Chart.chartData entries = map Chart.toPoint (Chart.chartBuckets entries).
Proof.
  unfold Chart.chartData. destruct entries as [|e es]; [reflexivity|].
  destruct (Z.eqb_spec (len (e :: es)) 0) as [E|_]; [|reflexivity].
  rewrite len_cons in E. pose proof (len_nonneg es). lia.
Qed.


End ChartTheorem.

(** ** CSV export *)

(** *** Decimal digits *)

#[local] Open Scope Z_scope.

Lemma append_cons (c : ascii) (a b : string) :
  (String c a ++ b)%string = String c (a ++ b)%string.
Proof. reflexivity. Qed.

Lemma append_nil_l (b : string) : (EmptyString ++ b)%string = b.
Proof. reflexivity. Qed.

Lemma string_app_assoc (a b c : string) :
  (a ++ (b ++ c))%string = ((a ++ b) ++ c)%string.
Proof.
  induction a as [|x a IH]; [reflexivity|].
  now rewrite !append_cons, IH.
Qed.

Lemma digitsOf_S (f : nat) (n : Z) (acc : string) :
  digitsOf (S f) n acc
  = if n <? 10 then String (digitChar (n mod 10)) acc
    else digitsOf f (n / 10) (String (digitChar (n mod 10)) acc).
Proof. reflexivity. Qed.

Lemma digitsOf_acc (f : nat) (n : Z) (acc : string) :
  digitsOf f n acc = (digitsOf f n EmptyString ++ acc)%string.
Proof.
  revert n acc. induction f as [|f IH]; intros n acc; [reflexivity|].
  rewrite !digitsOf_S. destruct (n <? 10); [reflexivity|].
  rewrite (IH _ (String _ acc)), (IH _ (String _ EmptyString)).
  now rewrite <- string_app_assoc.
Qed.

Lemma digitsOf_fuel (f f' : nat) (n : Z) :
  0 <= n < 2 ^ Z.of_nat (S f) -> n < 2 ^ Z.of_nat (S f') ->
  digitsOf (S f) n EmptyString = digitsOf (S f') n EmptyString.
Proof.
  revert f' n. induction f as [|f IH]; intros f' n Hn Hn'.
  - rewrite !digitsOf_S. change (2 ^ Z.of_nat 1) with 2 in Hn.
    destruct (Z.ltb_spec n 10); [reflexivity | lia].
  - rewrite (digitsOf_S (S f)), (digitsOf_S f').
    destruct (Z.ltb_spec n 10) as [|Hge]; [reflexivity|].
    destruct f' as [|f']; [change (2 ^ Z.of_nat 1) with 2 in Hn'; lia|].
    rewrite (digitsOf_acc (S f)), (digitsOf_acc (S f')). f_equal.
    rewrite Nat2Z.inj_succ, Z.pow_succ_r in Hn, Hn' by lia.
    apply IH; Z.to_euclidean_division_equations; lia.
Qed.

Lemma String_of_nonneg_small (n : Z) :
  0 <= n < 10 -> String_of_nonneg n = String (digitChar n) EmptyString.
Proof.
  intros Hn. unfold String_of_nonneg. rewrite digitsOf_S.
  destruct (Z.ltb_spec n 10); [|lia]. now rewrite Z.mod_small by lia.
Qed.

Lemma String_of_nonneg_unfold (n : Z) :
  10 <= n ->
  String_of_nonneg n
  = (String_of_nonneg (n / 10) ++ String (digitChar (n mod 10)) EmptyString)%string.
Proof.
  intros Hn. unfold String_of_nonneg.
  pose proof (Z.log2_spec n ltac:(lia)) as [Hlo Hhi].
  assert (H3 : 3 <= Z.log2 n) by (change 3 with (Z.log2 10); now apply Z.log2_le_mono).
  destruct (Z.to_nat (Z.log2 n)) as [|g] eqn:Eg; [lia|].
  rewrite digitsOf_S. destruct (Z.ltb_spec n 10); [lia|].
  rewrite digitsOf_acc. f_equal.
  assert (Hq : 0 < n / 10) by (Z.to_euclidean_division_equations; lia).
  pose proof (Z.log2_spec (n / 10) Hq) as [_ Hq'].
  pose proof (Z.log2_nonneg (n / 10)).
  apply digitsOf_fuel.
  - replace (Z.of_nat (S g)) with (Z.log2 n) by lia.
    unfold Z.succ in Hhi. rewrite Z.pow_add_r in Hhi by lia.
    change (2 ^ 1) with 2 in Hhi. Z.to_euclidean_division_equations; lia.
  - replace (Z.of_nat (S (Z.to_nat (Z.log2 (n / 10))))) with (Z.succ (Z.log2 (n / 10))) by lia.
    exact Hq'.
Qed.

Lemma String_of_int_nonneg (n : Z) : 0 <= n -> String_of_int n = String_of_nonneg n.
Proof. intros Hn. unfold String_of_int. destruct (Z.ltb_spec n 0); [lia | reflexivity]. Qed.

(** *** Zero padding *)

Lemma cycle_zeros (k : nat) :
  cycle k "0" "0" = zeros k /\ cycle k "0" EmptyString = zeros k.
Proof.
  induction k as [|k [IH1 IH2]]; [split; reflexivity|].
  cbn [cycle zeros]. split; now rewrite IH2.
Qed.

Lemma padStart_zeros (k : nat) (s : string) :
  padStart k "0" s = (zeros (k - String.length s) ++ s)%string.
Proof.
  unfold padStart. destruct (Nat.leb_spec k (String.length s)) as [H|H].
  - now replace (k - String.length s)%nat with 0%nat by lia.
  - now rewrite (proj1 (cycle_zeros _)).
Qed.

Lemma append_length (a b : string) :
  String.length (a ++ b) = (String.length a + String.length b)%nat.
Proof.
  induction a as [|c a IH]; [reflexivity|].
  rewrite append_cons. cbn [String.length]. now rewrite IH.
Qed.

Lemma fixedWidth_zero (k : nat) : fixedWidth k 0 = zeros k.
Proof.
  induction k as [|k IH]; [reflexivity|]. cbn [fixedWidth].
  change (0 / 10) with 0. change (0 mod 10) with 0. rewrite IH.
  clear IH. induction k as [|k IH]; [reflexivity|].
  cbn [zeros]. now rewrite append_cons, IH.
Qed.

Lemma padded_fixedWidth (k : nat) (n : Z) :
  0 <= n < 10 ^ Z.of_nat (S k) ->
  (String.length (String_of_nonneg n) <= S k)%nat
  /\ (zeros (S k - String.length (String_of_nonneg n)) ++ String_of_nonneg n)%string
     = fixedWidth (S k) n.
Proof.
  revert n. induction k as [|k IH]; intros n Hn.
  - change (10 ^ Z.of_nat 1) with 10 in Hn.
    rewrite String_of_nonneg_small by lia. cbn.
    split; [lia|]. now rewrite Z.mod_small by lia.
  - destruct (Z.lt_ge_cases n 10) as [Hlt|Hge].
    + rewrite String_of_nonneg_small by lia. cbn [String.length]. split; [lia|].
      cbn [fixedWidth]. rewrite (Z.div_small n 10), (Z.mod_small n 10) by lia.
      change (0 / 10) with 0. change (0 mod 10) with 0.
      replace (S (S k) - 1)%nat with (S k) by lia.
      pose proof (fixedWidth_zero (S k)) as E. cbn [fixedWidth] in E.
      change (0 / 10) with 0 in E. change (0 mod 10) with 0 in E. now rewrite E.
    + rewrite String_of_nonneg_unfold by lia.
      rewrite Nat2Z.inj_succ, Z.pow_succ_r in Hn by lia.
      destruct (IH (n / 10)) as [Hlen Heq];
        [Z.to_euclidean_division_equations; lia|].
      rewrite append_length. cbn [String.length]. split; [lia|].
      replace (S (S k) - (String.length (String_of_nonneg (n / 10)) + 1))%nat
        with (S k - String.length (String_of_nonneg (n / 10)))%nat by lia.
      rewrite string_app_assoc, Heq. reflexivity.
Qed.

Lemma padStart_fixedWidth (k : nat) (n : Z) :
  0 <= n < 10 ^ Z.of_nat (S k) ->
  padStart (S k) "0" (String_of_int n) = fixedWidth (S k) n.
Proof.
  intros Hn. rewrite String_of_int_nonneg, padStart_zeros by lia.
  now apply padded_fixedWidth.
Qed.



Lemma String_of_nonneg_length (n : Z) :
  0 <= n -> (1 <= String.length (String_of_nonneg n))%nat.
Proof.
  intros Hn. destruct (Z.lt_ge_cases n 10).
  - rewrite String_of_nonneg_small by lia. cbn. lia.
  - rewrite String_of_nonneg_unfold, append_length by lia. cbn [String.length]. lia.
Qed.


(** *** Cutting a string *)










Section CsvFacts.
Context {host : Host}.



End CsvFacts.

(** *** Lines and quoting *)

Lemma append_nil_r (a : string) : (a ++ EmptyString)%string = a.
Proof.
  induction a as [|c a IH]; [reflexivity|]. now rewrite append_cons, IH.
Qed.






Section CsvTheorem.
Context {host : Host}.


End CsvTheorem.


(* ===================================================================== *)
(** * Further properties of the page and of the worker *)
(* ===================================================================== *)

(** ** The collection and its order *)









(** X3: a delete removes every reading with the id of the deleted one and
    no other: the rest stays, in the same order. *)
Theorem afterDelete_removes_id (entry : Entry) (prev : list Entry) :
  (forall e, In e (afterDelete entry prev) <-> In e prev /\ id e <> id entry)
  /\ sublist (afterDelete entry prev) prev
  /\ (~ In (id entry) (map id prev) -> afterDelete entry prev = prev).
Proof.
  unfold afterDelete. split; [|split].
  - intros e. rewrite List.filter_In, negb_true_iff, String.eqb_neq. reflexivity.
  - apply filter_sublist.
  - intros Hnot. induction prev as [|x prev IH]; [reflexivity|].
    cbn [List.filter]. cbn [map In] in Hnot.
    destruct (String.eqb_spec (id x) (id entry)) as [E|_]; [tauto|].
    cbn [negb]. f_equal. apply IH. tauto.
Qed.

Lemma replace_ids (updated : Entry) (prev : list Entry) :
  map id (map (fun entry => if String.eqb (id entry) (id updated)
                            then updated else entry) prev)
  = map id prev.
Proof.
  rewrite map_map. apply map_ext. intros e.
  destruct (String.eqb_spec (id e) (id updated)) as [E|_]; congruence.
Qed.

(** X4: ids stay unique: an edit and a delete never break the uniqueness
    of ids, and a new reading keeps it when its id is not in use; an edit
    keeps the number of readings and a new reading adds one. *)
Theorem mutations_keep_ids_unique (prev : list Entry) (e : Entry) :
  List.NoDup (map id prev) ->
  List.NoDup (map id (afterDelete e prev))
  /\ List.NoDup (map id (afterUpdate e prev))
  /\ (~ In (id e) (map id prev) -> List.NoDup (map id (afterInsert e prev)))
  /\ List.length (afterUpdate e prev) = List.length prev
  /\ List.length (afterInsert e prev) = S (List.length prev).
Proof.
  intros Hnd. split; [|split; [|split; [|split]]].
  - unfold afterDelete. induction prev as [|x prev IH]; [constructor|].
    cbn [map] in Hnd. apply List.NoDup_cons_iff in Hnd as [Hx Hnd].
    cbn [List.filter]. destruct (negb _); [|now apply IH].
    cbn [map]. constructor; [|now apply IH].
    intros Hin. apply Hx. apply in_map_iff in Hin as (y & Ey & Hy).
    apply List.filter_In in Hy as [Hy _]. apply in_map_iff. now exists y.
  - unfold afterUpdate.
    eapply Permutation_NoDup;
      [apply Permutation_map; symmetry; apply sort_by_Permutation|].
    now rewrite replace_ids.
  - intros Hnew. unfold afterInsert.
    eapply Permutation_NoDup;
      [apply Permutation_map; symmetry; apply sort_by_Permutation|].
    cbn [map]. now constructor.
  - unfold afterUpdate.
    rewrite (Permutation_length (sort_by_Permutation cmpDateDesc _)).
    apply length_map.
  - unfold afterInsert.
    now rewrite (Permutation_length (sort_by_Permutation cmpDateDesc _)).
Qed.

Lemma mutations_keep_ids_unique_witness :
  List.NoDup (map id initialEntries)
  /\ List.NoDup (map id (afterUpdate (mkEntry "2" (70 # 10) "2024-05-18T09:00" Fasting None)
                                     initialEntries)).
Proof.
  assert (H : List.NoDup (map id initialEntries)).
  { cbn. repeat (constructor; [cbn; intuition discriminate|]). constructor. }
  split; [exact H|].
  exact (proj1 (proj2 (mutations_keep_ids_unique initialEntries _ H))).
Defined.

(** X5: an edited reading takes the place of every reading with its id:
    afterwards the collection holds the edited reading (when the id was
    present) and no other reading with that id, and the readings with
    other ids are those of before. *)
Theorem afterUpdate_replaces (updated : Entry) (prev : list Entry) (e : Entry) :
  In e (afterUpdate updated prev)
  <-> (e = updated /\ In (id updated) (map id prev))
      \/ (In e prev /\ id e <> id updated).
Proof.
  unfold afterUpdate.
  set (f := fun entry => if String.eqb (id entry) (id updated) then updated else entry).
  assert (HP : forall x, In x (sortEntriesByDateDesc (map f prev)) <-> In x (map f prev)).
  { intros x. split; apply Permutation_in;
      [apply sort_by_Permutation | symmetry; apply sort_by_Permutation]. }
  rewrite HP, in_map_iff. subst f. cbn beta. split.
  - intros (x & Ex & Hx).
    destruct (String.eqb_spec (id x) (id updated)) as [E|Hne].
    + left. split; [now symmetry|]. rewrite <- E. now apply in_map.
    + right. subst e. now split.
  - intros [[-> Hin] | [Hin Hne]].
    + apply in_map_iff in Hin as (x & Ex & Hx). exists x.
      apply String.eqb_eq in Ex. now rewrite Ex.
    + exists e. apply String.eqb_neq in Hne. now rewrite Hne.
Qed.

(** X6: what [handleSubmit] sends for a reading comes back from
    [mapRowToEntry] as the same reading; and a row whose period is not one
    of the three names becomes a fasting reading, a row that names a
    period keeps it. *)
Theorem mapRowToEntry_payload (e : Entry) (row : Row.SupabaseRow) :
  mapRowToEntry (payload e) = e
  /\ (In (Row.period row) allowedPeriods ->
      periodName (period (mapRowToEntry row)) = Row.period row)
  /\ (~ In (Row.period row) allowedPeriods ->
      period (mapRowToEntry row) = Fasting).
Proof.
  split; [|split].
  - destruct e as [i v d p n]. unfold mapRowToEntry, payload. cbn.
    now destruct p.
  - unfold mapRowToEntry. cbn [period In allowedPeriods].
    intros [<-|[<-|[<-|[]]]]; reflexivity.
  - intros Hnot. unfold mapRowToEntry. cbn [period].
    destruct (existsb _ allowedPeriods) eqn:E; [|reflexivity].
    exfalso. apply Hnot. apply existsb_exists in E as (x & Hx & Ex).
    apply String.eqb_eq in Ex. now subst.
Qed.

(** ** More on the summary *)

#[local] Open Scope Q_scope.





(** X8: with at most 3 readings every reading is recent: the recent
    average is the average and the trend is 0. *)
Theorem averages_few_readings (entries : list Entry) :
  (List.length entries <= 3)%nat ->
  recent (averages entries) == average (averages entries)
  /\ trend (averages entries) == 0.
Proof.
  intros Hlen. destruct entries as [|e es]; [split; reflexivity|].
  destruct (averages_nonempty (e :: es)) as (Ea & Er & Et); [discriminate|].
  cbv zeta in Ea, Er, Et.
  rewrite (firstn_all2 (e :: es)) in Er, Et by exact Hlen.
  split.
  - now rewrite Er, Ea.
  - rewrite Et. transitivity (round1 0); [apply round1_Qeq; ring | reflexivity].
Qed.

Lemma averages_few_readings_witness :
  (List.length (firstn 3 initialEntries) <= 3)%nat
  /\ trend (averages (firstn 3 initialEntries)) == 0.
Proof.
  assert (H : (List.length (firstn 3 initialEntries) <= 3)%nat) by (cbn; lia).
  split; [exact H | exact (proj2 (averages_few_readings _ H))].
Defined.




(** ** What the cards display *)



Section DisplayFacts.
Context {host : Host}.


End DisplayFacts.


(** ** The window of a page *)

#[local] Open Scope Z_scope.

Lemma paginatedEntries_firstn_skipn (l : list Entry) (p : Z) :
  1 <= p ->
  paginatedEntries l p = firstn 10 (skipn (Z.to_nat (10 * (p - 1))) l).
Proof.
  intros Hp. unfold paginatedEntries, PAGE_SIZE. rewrite slice_nonneg by lia.
  f_equal; [|f_equal]; lia.
Qed.

(** X11: on a page that exists of a list that is not empty, the footer
    [Showing start-end of n] counts the readings of the page: the page
    holds [end - start + 1] readings, between 1 and 10, exactly 10 on every
    page but the last, and its [k]-th reading is the reading number
    [10 (p - 1) + k] of the filtered list. *)
Theorem page_window (filtered : list Entry) (p : Z) :
  filtered <> [] ->
  1 <= p <= totalPages filtered ->
  len (paginatedEntries filtered p)
  = endIndex filtered p - startIndex filtered p + 1
  /\ 1 <= len (paginatedEntries filtered p) <= 10
  /\ (p < totalPages filtered -> len (paginatedEntries filtered p) = 10)
  /\ (forall k : nat, (k < 10)%nat ->
        nth_error (paginatedEntries filtered p) k
        = nth_error filtered (Z.to_nat (10 * (p - 1)) + k)).
Proof.
  intros Hne [Hp1 Hp2].
  assert (Hn : 0 < len filtered).
  { destruct filtered; [congruence|]. rewrite len_cons.
    pose proof (len_nonneg filtered). lia. }
  rewrite totalPages_pageCount in *. unfold pageCount in *.
  destruct (ceilTenth_least (len filtered)) as [Hc1 Hc2].
  rewrite paginatedEntries_firstn_skipn by exact Hp1.
  unfold startIndex, endIndex, PAGE_SIZE.
  destruct (Z.eqb_spec (len filtered) 0) as [E|_]; [lia|].
  assert (Hlen : len (firstn 10 (skipn (Z.to_nat (10 * (p - 1))) filtered))
                 = Z.min 10 (len filtered - 10 * (p - 1))).
  { unfold len in *. rewrite length_firstn, length_skipn. lia. }
  rewrite Hlen. split; [lia|]. split; [lia|]. split; [lia|].
  intros k Hk. rewrite nth_error_firstn.
  destruct (Nat.ltb_spec k 10); [|lia]. apply nth_error_skipn.
Qed.

Lemma page_window_witness :
  initialEntries <> []
  /\ 1 <= 1 <= totalPages initialEntries
  /\ len (paginatedEntries initialEntries 1) = 4.
Proof.
  assert (Hne : initialEntries <> []) by discriminate.
  assert (Hp : 1 <= 1 <= totalPages initialEntries) by (vm_compute; split; discriminate).
  split; [exact Hne|]. split; [exact Hp|].
  exact (proj1 (page_window initialEntries 1 Hne Hp)).
Defined.

(** X12: a page after the last one is empty, which is what the clamp of
    the current page avoids; so is page 0. *)
Theorem page_beyond_last_is_empty (filtered : list Entry) (p : Z) :
  totalPages filtered < p ->
  paginatedEntries filtered p = []
  /\ paginatedEntries filtered 0 = [].
Proof.
  intros Hp. pose proof (totalPages_pos filtered) as Ht.
  rewrite totalPages_pageCount in *. unfold pageCount in *.
  destruct (ceilTenth_least (len filtered)) as [Hc1 Hc2].
  pose proof (len_nonneg filtered) as Hn. split.
  - rewrite paginatedEntries_firstn_skipn by lia.
    rewrite skipn_all2; [apply firstn_nil|]. unfold len in *. lia.
  - unfold paginatedEntries, PAGE_SIZE, slice, relIndex.
    change ((0 - 1) * 10) with (-10). change (-10 + 10) with 0.
    change (-10 <? 0) with true. change (0 <? 0) with false. cbv iota.
    rewrite (Z.min_l 0) by lia.
    replace (Z.to_nat (0 - Z.max (len filtered + -10) 0)) with 0%nat by lia.
    reflexivity.
Qed.

Lemma page_beyond_last_is_empty_witness :
  totalPages initialEntries < 2 /\ paginatedEntries initialEntries 2 = [].
Proof.
  assert (H : totalPages initialEntries < 2) by (vm_compute; reflexivity).
  split; [exact H | exact (proj1 (page_beyond_last_is_empty initialEntries 2 H))].
Defined.

(** ** The series of the chart *)

Section ChartSeries.
Context {host : Host}.

Lemma chart_keys (entries : list Entry) :
  let keys := map fst (Chart.chartBuckets entries) in
  Chart.chartData entries = map (dayPoint entries) keys
  /\ (forall k, In k keys -> In k (map dayKey entries))
  /\ (entries <> [] -> keys <> []).
Proof.
  intros keys.
  destruct (buildBuckets_bucketsOf entries) as (Hnd & Hkeys & Hval).
  set (B := Chart.buildBuckets entries) in *.
  set (S := sort_by Chart.cmpDay B).
  assert (HP : Permutation S B) by apply sort_by_Permutation.
  assert (Hkept : Chart.chartBuckets entries = skipn (List.length S - 8) S).
  { unfold Chart.chartBuckets. fold B. fold S. exact (slice_from_last S 8 eq_refl). }
  assert (Hin : forall kb, In kb (skipn (List.length S - 8) S) -> In kb B).
  { intros kb H. apply (Permutation_in _ HP).
    rewrite <- (firstn_skipn (List.length S - 8) S). apply in_or_app. now right. }
  subst keys. rewrite Hkept. split; [|split].
  - rewrite chartData_toPoint, Hkept, map_map. apply map_ext_in.
    intros [k b] Hkb. cbn [fst]. apply toPoint_dayPoint, Hval, Hin, Hkb.
  - intros k Hk. apply Hkeys. apply in_map_iff in Hk as (kb & <- & Hkb).
    apply in_map, Hin, Hkb.
  - intros Hne Hnil. apply map_eq_nil in Hnil.
    assert (HS : S <> []).
    { destruct entries as [|e es]; [congruence|].
      assert (He : In (dayKey e) (map fst B)) by (apply Hkeys; now left).
      apply in_map_iff in He as (kb & _ & Hkb).
      intros E. apply (Permutation_in _ (Permutation_sym HP)) in Hkb.
      rewrite E in Hkb. destruct Hkb. }
    apply (f_equal (@List.length _)) in Hnil. rewrite length_skipn in Hnil.
    cbn [List.length] in Hnil. destruct S; [congruence|]. cbn [List.length] in Hnil. lia.
Qed.

Lemma dayValues_nonempty (entries : list Entry) (k : string) (p : Period) :
  dayValues entries k p <> []
  <-> exists e, In e entries /\ dayKey e = k /\ period e = p.
Proof.
  unfold dayValues. split.
  - intros H. destruct (List.filter _ entries) as [|e l] eqn:E; [now cbn in H|].
    assert (He : In e (List.filter
                         (fun e => String.eqb (dayKey e) k && Period_eqb (period e) p)
                         entries)) by (rewrite E; now left).
    apply List.filter_In in He as [He Hb]. apply andb_true_iff in Hb as [H1 H2].
    exists e. split; [exact He|]. split; [now apply String.eqb_eq | now apply Period_eqb_eq].
  - intros (e & He & <- & <-) Hnil. apply map_eq_nil in Hnil.
    assert (Hin : In e (List.filter
                          (fun x => String.eqb (dayKey x) (dayKey e)
                                    && Period_eqb (period x) (period e))
                          entries)).
    { apply List.filter_In. split; [exact He|].
      rewrite String.eqb_refl. now rewrite (proj2 (Period_eqb_eq _ _) eq_refl). }
    rewrite Hnil in Hin. destruct Hin.
Qed.

Lemma meanRounded_isNumber (vs : list Q) :
  isNumber (meanRounded vs) = true <-> vs <> [].
Proof. destruct vs; cbn; split; congruence. Qed.

(** X13: a series is drawn exactly when one of the charted days has a
    reading of its period, and every point of the chart has a value in one
    series at least; so the legend is shown exactly when the collection
    is not empty. *)
Theorem chart_series_shown (entries : list Entry) :
  let keys := map fst (Chart.chartBuckets entries) in
  (hasFastingSeries entries = true
   <-> exists e, In e entries /\ In (dayKey e) keys /\ period e = Fasting)
  /\ (hasPreMealSeries entries = true
      <-> exists e, In e entries /\ In (dayKey e) keys /\ period e = PreMeal)
  /\ (hasPostMealSeries entries = true
      <-> exists e, In e entries /\ In (dayKey e) keys /\ period e = PostMeal)
  /\ Forall (fun point =>
               isNumber (Chart.Point.fasting point)
               || isNumber (Chart.Point.preMeal point)
               || isNumber (Chart.Point.postMeal point) = true)
            (Chart.chartData entries)
  /\ (shouldShowLegend entries = true <-> entries <> []).
Proof.
  intros keys.
  destruct (chart_keys entries) as (Hdata & Hsub & Hne). fold keys in Hdata, Hsub, Hne.
  assert (Hseries : forall p (proj : Chart.Point.ChartPoint -> option Q),
    (forall k, proj (dayPoint entries k) = meanRounded (dayValues entries k p)) ->
    existsb (fun point => isNumber (proj point)) (Chart.chartData entries) = true
    <-> exists e, In e entries /\ In (dayKey e) keys /\ period e = p).
  { intros p proj Hproj. rewrite Hdata, existsb_exists. split.
    - intros (pt & Hpt & Hnum). apply in_map_iff in Hpt as (k & <- & Hk).
      rewrite Hproj in Hnum. apply meanRounded_isNumber, dayValues_nonempty in Hnum.
      destruct Hnum as (e & He & <- & Hp). now exists e.
    - intros (e & He & Hk & Hp). exists (dayPoint entries (dayKey e)).
      split; [now apply in_map|]. rewrite Hproj.
      apply meanRounded_isNumber, dayValues_nonempty. now exists e. }
  pose proof (Hseries Fasting Chart.Point.fasting (fun _ => eq_refl)) as HF.
  pose proof (Hseries PreMeal Chart.Point.preMeal (fun _ => eq_refl)) as HPre.
  pose proof (Hseries PostMeal Chart.Point.postMeal (fun _ => eq_refl)) as HPost.
  assert (Hpoint : forall k, In k keys ->
            exists e, In e entries /\ dayKey e = k).
  { intros k Hk. apply Hsub in Hk. apply in_map_iff in Hk as (e & E & He). now exists e. }
  split; [exact HF|]. split; [exact HPre|]. split; [exact HPost|]. split.
  - rewrite Hdata. apply List.Forall_forall. intros pt Hpt.
    apply in_map_iff in Hpt as (k & <- & Hk).
    destruct (Hpoint k Hk) as (e & He & Ek).
    unfold dayPoint. cbn [Chart.Point.fasting Chart.Point.preMeal Chart.Point.postMeal].
    assert (Hv : dayValues entries k (period e) <> [])
      by (apply dayValues_nonempty; now exists e).
    apply meanRounded_isNumber in Hv.
    destruct (period e); rewrite Hv; cbn; now rewrite ?orb_true_r.
  - unfold shouldShowLegend, hasFastingSeries, hasPreMealSeries, hasPostMealSeries.
    split.
    + intros H Hnil. subst entries. discriminate H.
    + intros Hnn. specialize (Hne Hnn).
      destruct keys as [|k ks] eqn:Ek; [congruence|].
      destruct (Hpoint k (or_introl eq_refl)) as (e & He & Ee).
      assert (Hin : In (dayKey e) (k :: ks)) by (left; now symmetry).
      destruct (period e) eqn:Ep.
      * rewrite (proj2 HF) by (now exists e). reflexivity.
      * rewrite (proj2 HPre) by (now exists e). now rewrite orb_true_r.
      * rewrite (proj2 HPost) by (now exists e). now rewrite !orb_true_r.
Qed.

End ChartSeries.

(** ** The chart of the first version *)

Section ChartV1.
Context {host : Host}.
Variable formatWeekdayTime : JsDate -> string.

(** X14: the first chart draws the last 8 readings in ascending order of
    time: at most 8 points, one per reading kept, in the order of their
    time values, and no reading left out is later than a reading drawn. *)
Theorem v1_chart_last_readings (entries : list Entry) :
  let time := fun e => getTime (newDate (date e)) in
  let recent := V1.recentReadings entries in
  map V1.value (V1.chartData formatWeekdayTime entries) = map value recent
  /\ List.length recent = Nat.min 8 (List.length entries)
  /\ StronglySorted (fun a b => time a <= time b) recent
  /\ exists older,
       Permutation (older ++ recent) entries
       /\ forall a b, In a older -> In b recent -> time a <= time b.
Proof.
  intros time recent.
  set (S := sort_by V1.cmpTime entries).
  assert (HP : Permutation S entries) by apply sort_by_Permutation.
  assert (HS : StronglySorted (fun a b => time a <= time b) S).
  { apply Sorted_StronglySorted; [intros a b c; lia|].
    apply (sort_by_Sorted V1.cmpTime); intros x y H; unfold V1.cmpTime in H; subst time;
      cbv beta; [apply Z.ltb_lt in H | apply Z.ltb_ge in H]; lia. }
  assert (Hrec : recent = skipn (List.length S - 8) S)
    by exact (slice_from_last S 8 eq_refl).
  rewrite <- (firstn_skipn (List.length S - 8) S) in HS, HP.
  rewrite <- Hrec in HS, HP.
  apply StronglySorted_app_inv in HS as [Hs Hcross].
  split; [|split; [|split]].
  - unfold V1.chartData. fold recent. now rewrite map_map.
  - rewrite Hrec, length_skipn. subst S.
    rewrite (Permutation_length (sort_by_Permutation V1.cmpTime entries)). lia.
  - exact Hs.
  - exists (firstn (List.length S - 8) S). split; [exact HP | exact Hcross].
Qed.

End ChartV1.

(** ** The caches of the worker *)

Lemma caches_put_match (storage : Sw.CacheStorage) (request : Sw.Request) (r : Sw.Response) :
  Forall (fun nc => fst nc = Sw.CACHE_NAME) storage ->
  Sw.caches_match (Sw.caches_put Sw.CACHE_NAME request r storage) request = Some r.
Proof.
  intros Hall. destruct storage as [|[n c] storage]; cbn [Sw.caches_put Sw.caches_match].
  - unfold Sw.Cache. now rewrite lookup_singleton_eq.
  - apply List.Forall_inv in Hall. cbn [fst] in Hall. subst n.
    rewrite String.eqb_refl. cbn [Sw.caches_match].
    unfold Sw.Cache in *. now rewrite lookup_insert_eq.
Qed.

Lemma caches_put_other (name : string) (storage : Sw.CacheStorage)
      (request request' : Sw.Request) (r : Sw.Response) :
  Sw.url request' <> Sw.url request ->
  Sw.caches_match (Sw.caches_put name request r storage) request'
  = Sw.caches_match storage request'.
Proof.
  intros Hne. induction storage as [|[n c] storage IH]; cbn [Sw.caches_put Sw.caches_match].
  - unfold Sw.Cache. now rewrite lookup_singleton_ne.
  - destruct (String.eqb n name); cbn [Sw.caches_match].
    + unfold Sw.Cache in *. now rewrite lookup_insert_ne.
    + now rewrite IH.
Qed.

(** X15: a page fetched while online is served while offline: after a GET
    whose network response is a plain response with status 200, in a
    storage that holds only the current cache, the request matches that
    response, so the same request with the network down is answered with
    it; the other requests match what they matched before. *)
Theorem onFetch_stores_response
        (storage : Sw.CacheStorage) (request : Sw.Request) (r : Sw.Response) :
  Sw.method request = "GET"%string ->
  Forall (fun nc => fst nc = Sw.CACHE_NAME) storage ->
  Sw.status r = 200 ->
  Sw.type r <> Sw.opaque ->
  String.prefix "chrome-extension://" (Sw.url request) = false ->
  let storage' := fst (Sw.onFetch storage request (Sw.Fulfilled r)) in
  Sw.caches_match storage' request = Some r
  /\ snd (Sw.onFetch storage' request Sw.Rejected) = Sw.Responded r
  /\ (forall request', Sw.url request' <> Sw.url request ->
        Sw.caches_match storage' request' = Sw.caches_match storage request').
Proof.
  intros Hget Hall Hst Hty Hurl storage'.
  assert (E : storage' = Sw.caches_put Sw.CACHE_NAME request r storage).
  { subst storage'. unfold Sw.onFetch. rewrite Hget.
    change (negb ("GET" =? "GET")%string) with false. cbv iota.
    unfold Sw.fetchPromise, Sw.onNetworkResponse. rewrite Hst, Hurl.
    change (negb (200 =? 200)) with false.
    assert (Ho : Sw.isOpaque (Sw.type r) = false) by (destruct (Sw.type r); cbn; congruence).
    rewrite Ho. cbn [orb].
    now destruct (Sw.caches_match storage request). }
  assert (Hm : Sw.caches_match storage' request = Some r)
    by (rewrite E; now apply caches_put_match).
  split; [exact Hm|]. split.
  - unfold Sw.onFetch. rewrite Hget.
    change (negb ("GET" =? "GET")%string) with false. cbv iota.
    now rewrite Hm.
  - intros request' Hne. rewrite E. now apply caches_put_other.
Qed.

Lemma onFetch_stores_response_witness :
  let request := Sw.mkRequest "GET" "/" in
  let r := Sw.mkResponse 200 Sw.basic "shell" in
  Sw.method request = "GET"%string
  /\ snd (Sw.onFetch (fst (Sw.onFetch [] request (Sw.Fulfilled r))) request Sw.Rejected)
     = Sw.Responded r.
Proof.
  cbv zeta. split; [reflexivity|].
  refine (proj1 (proj2 (onFetch_stores_response [] (Sw.mkRequest "GET" "/")
                          (Sw.mkResponse 200 Sw.basic "shell") eq_refl _ eq_refl _ eq_refl))).
  - constructor.
  - discriminate.
Defined.

(** X16: nothing is written to the cache by a request that is not a GET,
    by a fetch that fails, by a response whose status is not 200, by an
    opaque response, or for a URL of a browser extension. *)
Theorem onFetch_leaves_cache
        (storage : Sw.CacheStorage) (request : Sw.Request)
        (network : Sw.Settled Sw.Response) :
  Sw.method request <> "GET"%string
  \/ network = Sw.Rejected
  \/ (exists r, network = Sw.Fulfilled r
                /\ (Sw.status r <> 200 \/ Sw.type r = Sw.opaque
                    \/ String.prefix "chrome-extension://" (Sw.url request) = true)) ->
  fst (Sw.onFetch storage request network) = storage.
Proof.
  intros H. unfold Sw.onFetch.
  destruct (String.eqb_spec (Sw.method request) "GET") as [Hget|Hne]; cbn [negb];
    [|reflexivity].
  destruct H as [H | [-> | (r & -> & H)]]; [congruence | |].
  - cbn [Sw.fetchPromise]. now destruct (Sw.caches_match storage request).
  - cbn [Sw.fetchPromise]. unfold Sw.onNetworkResponse.
    assert (E : negb (Sw.status r =? 200) || Sw.isOpaque (Sw.type r)
                || String.prefix "chrome-extension://" (Sw.url request) = true).
    { destruct H as [H | [H | H]].
      - apply Z.eqb_neq in H. now rewrite H.
      - rewrite H. cbn. now rewrite orb_true_r.
      - rewrite H. now rewrite orb_true_r. }
    rewrite E. now destruct (Sw.caches_match storage request).
Qed.

Lemma onFetch_leaves_cache_witness :
  let storage := [(Sw.CACHE_NAME, (∅ : Sw.Cache))] in
  let request := Sw.mkRequest "GET" "/missing" in
  fst (Sw.onFetch storage request (Sw.Fulfilled (Sw.mkResponse 404 Sw.basic "")))
  = storage.
Proof.
  cbv zeta. apply onFetch_leaves_cache. right. right.
  eexists. split; [reflexivity|]. left. discriminate.
Defined.

(** X17: activation leaves only caches with the current name and keeps
    each of them as it is; a response held by a stale cache alone is not
    matched afterwards, and a storage with current caches only does not
    change. *)
Theorem onActivate_retires_stale (storage : Sw.CacheStorage) :
  Forall (fun nc => fst nc = Sw.CACHE_NAME) (Sw.onActivate storage)
  /\ (forall c, In (Sw.CACHE_NAME, c) (Sw.onActivate storage)
                <-> In (Sw.CACHE_NAME, c) storage)
  /\ (forall request,
        (forall c, In (Sw.CACHE_NAME, c) storage -> c !! Sw.url request = None) ->
        Sw.caches_match (Sw.onActivate storage) request = None)
  /\ (Forall (fun nc => fst nc = Sw.CACHE_NAME) storage ->
      Sw.onActivate storage = storage).
Proof.
  unfold Sw.onActivate. split; [|split; [|split]].
  - apply List.Forall_forall. intros [n c] H.
    apply List.filter_In in H as [_ H]. now apply String.eqb_eq in H.
  - intros c. rewrite List.filter_In. cbn [fst]. rewrite String.eqb_refl. tauto.
  - intros request Hnone.
    induction storage as [|[n c] storage IH]; [reflexivity|].
    cbn [List.filter fst]. destruct (String.eqb_spec n Sw.CACHE_NAME) as [->|Hne].
    + cbn [Sw.caches_match]. rewrite (Hnone c) by now left.
      apply IH. intros c' Hc'. apply Hnone. now right.
    + apply IH. intros c' Hc'. apply Hnone. now right.
  - intros Hall. induction storage as [|[n c] storage IH]; [reflexivity|].
    cbn [List.filter fst]. apply List.Forall_cons_iff in Hall as [Hn Hall].
    cbn [fst] in Hn. subst n. rewrite String.eqb_refl. f_equal. now apply IH.
Qed.

(** *** Install *)

Lemma fetchAll_Some (network : string -> Sw.Settled Sw.Response) (urls : list string) :
  (forall u, In u urls ->
     exists r, network u = Sw.Fulfilled r /\ Sw.acceptable r = true) ->
  exists rs, Sw.fetchAll network urls = Some rs
             /\ map fst rs = urls
             /\ (forall u r, In (u, r) rs -> network u = Sw.Fulfilled r).
Proof.
  induction urls as [|u urls IH]; intros H; cbn [Sw.fetchAll].
  - exists []. split; [reflexivity|]. split; [reflexivity | intros u r []].
  - destruct (H u (or_introl eq_refl)) as (r & Er & Ha). rewrite Er, Ha.
    destruct IH as (rs & E & Hfst & Hnet); [intros u' Hu'; apply H; now right|].
    rewrite E. exists ((u, r) :: rs). split; [reflexivity|].
    split; [cbn; now rewrite Hfst|].
    intros u' r' [Heq|Hin]; [injection Heq as <- <-; exact Er | now apply Hnet].
Qed.

Lemma fetchAll_None (network : string -> Sw.Settled Sw.Response) (urls : list string) (u : string) :
  In u urls ->
  (network u = Sw.Rejected
   \/ exists r, network u = Sw.Fulfilled r /\ Sw.acceptable r = false) ->
  Sw.fetchAll network urls = None.
Proof.
  induction urls as [|u' urls IH]; intros Hin Hbad; [destruct Hin|].
  cbn [Sw.fetchAll]. destruct Hin as [->|Hin].
  - destruct Hbad as [-> | (r & -> & ->)]; reflexivity.
  - rewrite (IH Hin Hbad). destruct (network u') as [r|]; [|reflexivity].
    now destruct (Sw.acceptable r).
Qed.

Lemma cache_putAll_lookup (network : string -> Sw.Settled Sw.Response)
      (rs : list (string * Sw.Response)) (c : gmap string Sw.Response)
      (u : string) (r : Sw.Response) :
  (forall u' r', In (u', r') rs -> network u' = Sw.Fulfilled r') ->
  network u = Sw.Fulfilled r ->
  c !! u = Some r \/ In u (map fst rs) ->
  Sw.cache_putAll rs c !! u = Some r.
Proof.
  unfold Sw.cache_putAll. revert c.
  induction rs as [|[u' r'] rs IH]; intros c Hnet Hu Hin; cbn [fold_left map fst snd In] in *.
  - destruct Hin as [H|[]]. exact H.
  - apply IH; [intros a b Hab; apply Hnet; now right | exact Hu |].
    destruct (decide (u' = u)) as [->|Hne].
    + left. assert (Er : network u = Sw.Fulfilled r') by (apply Hnet; now left).
      rewrite Hu in Er. injection Er as <-. apply lookup_insert_eq.
    + destruct Hin as [H|[H|H]]; [left | congruence | now right].
      unfold Sw.Cache in *. now rewrite lookup_insert_ne.
Qed.

Lemma caches_has_In (name : string) (storage : Sw.CacheStorage) :
  Sw.caches_has name storage = true <-> In name (map fst storage).
Proof.
  induction storage as [|[n c] storage IH]; cbn [Sw.caches_has map fst In];
    [split; [discriminate | tauto]|].
  now rewrite orb_true_iff, String.eqb_eq, IH.
Qed.

Lemma caches_update_holds (name : string) (f : Sw.Cache -> Sw.Cache)
      (storage : Sw.CacheStorage) :
  In name (map fst storage) ->
  exists c, In (name, c) storage /\ In (name, f c) (Sw.caches_update name f storage).
Proof.
  induction storage as [|[n c] storage IH]; cbn [map fst In Sw.caches_update]; [tauto|].
  intros Hin. destruct (String.eqb_spec n name) as [->|Hne].
  - exists c. split; now left.
  - destruct Hin as [H|H]; [congruence|].
    destruct (IH H) as (c' & H1 & H2). exists c'. split; now right.
Qed.

Lemma caches_match_holds (storage : Sw.CacheStorage) (request : Sw.Request)
      (n : string) (c : Sw.Cache) (r : Sw.Response) :
  In (n, c) storage -> c !! Sw.url request = Some r ->
  exists r', Sw.caches_match storage request = Some r'.
Proof.
  induction storage as [|[n' c'] storage IH]; intros Hin Hc; [destruct Hin|].
  cbn [Sw.caches_match]. destruct (c' !! Sw.url request) as [r'|] eqn:E; [now exists r'|].
  destruct Hin as [Heq|Hin]; [|now apply IH].
  injection Heq as -> ->. congruence.
Qed.

Lemma caches_open_match (name : string) (storage : Sw.CacheStorage) (request : Sw.Request) :
  Sw.caches_match (Sw.caches_open name storage) request
  = Sw.caches_match storage request.
Proof.
  unfold Sw.caches_open. destruct (Sw.caches_has name storage); [reflexivity|].
  induction storage as [|[n c] storage IH]; cbn [app Sw.caches_match].
  - unfold Sw.Cache. now rewrite lookup_empty.
  - now rewrite IH.
Qed.

(** X18: when every asset of the shell is fetched with an acceptable
    response the install reaches [skipWaiting], and afterwards every asset
    of the shell is answered by the worker with the network down. *)
Theorem onInstall_shell_offline
        (network : string -> Sw.Settled Sw.Response) (storage : Sw.CacheStorage) :
  (forall u, In u Sw.APP_SHELL ->
     exists r, network u = Sw.Fulfilled r /\ Sw.acceptable r = true) ->
  snd (Sw.onInstall network storage) = true
  /\ forall u, In u Sw.APP_SHELL ->
       exists r,
         snd (Sw.onFetch (fst (Sw.onInstall network storage))
                         (Sw.mkRequest "GET" u) Sw.Rejected)
         = Sw.Responded r.
Proof.
  intros Hall. unfold Sw.onInstall.
  destruct (fetchAll_Some network Sw.APP_SHELL Hall) as (rs & E & Hfst & Hnet).
  rewrite E. cbn [fst snd]. split; [reflexivity|]. intros u Hu.
  assert (Hopen : In Sw.CACHE_NAME (map fst (Sw.caches_open Sw.CACHE_NAME storage))).
  { unfold Sw.caches_open. destruct (Sw.caches_has Sw.CACHE_NAME storage) eqn:Eh.
    - now apply caches_has_In.
    - rewrite map_app. apply in_or_app. right. now left. }
  destruct (caches_update_holds Sw.CACHE_NAME (Sw.cache_putAll rs) _ Hopen)
    as (c & _ & Hc).
  destruct (Hall u Hu) as (r & Er & _).
  assert (Hl : Sw.cache_putAll rs c !! u = Some r).
  { apply (cache_putAll_lookup network); [exact Hnet | exact Er |].
    right. now rewrite Hfst. }
  destruct (caches_match_holds _ (Sw.mkRequest "GET" u) _ _ _ Hc Hl) as (r' & Hm).
  exists r'. unfold Sw.onFetch. cbn [Sw.method].
  change (negb ("GET" =? "GET")%string) with false. cbv iota.
  now rewrite Hm.
Qed.

Lemma onInstall_shell_offline_witness :
  let network := fun _ : string => Sw.Fulfilled (Sw.mkResponse 200 Sw.basic "asset") in
  (forall u, In u Sw.APP_SHELL ->
     exists r, network u = Sw.Fulfilled r /\ Sw.acceptable r = true)
  /\ snd (Sw.onInstall network []) = true.
Proof.
  cbv zeta.
  assert (H : forall u, In u Sw.APP_SHELL ->
     exists r, (fun _ : string => Sw.Fulfilled (Sw.mkResponse 200 Sw.basic "asset")) u
               = Sw.Fulfilled r /\ Sw.acceptable r = true).
  { intros u _. eexists. split; reflexivity. }
  split; [exact H|]. exact (proj1 (onInstall_shell_offline _ [] H)).
Defined.

(** X19: when one asset of the shell cannot be fetched, or comes with a
    response that is not acceptable, the install does not reach
    [skipWaiting] and writes no entry: every request matches what it
    matched before. *)
Theorem onInstall_all_or_nothing
        (network : string -> Sw.Settled Sw.Response) (storage : Sw.CacheStorage)
        (u : string) :
  In u Sw.APP_SHELL ->
  (network u = Sw.Rejected
   \/ exists r, network u = Sw.Fulfilled r /\ Sw.acceptable r = false) ->
  snd (Sw.onInstall network storage) = false
  /\ forall request,
       Sw.caches_match (fst (Sw.onInstall network storage)) request
       = Sw.caches_match storage request.
Proof.
  intros Hu Hbad. unfold Sw.onInstall.
  rewrite (fetchAll_None network Sw.APP_SHELL u Hu Hbad). cbn [fst snd].
  split; [reflexivity|]. intros request. apply caches_open_match.
Qed.

Lemma onInstall_all_or_nothing_witness :
  let network := fun u : string =>
    if String.eqb u "/favicon.ico" then Sw.Rejected
    else Sw.Fulfilled (Sw.mkResponse 200 Sw.basic "asset") in
  In "/favicon.ico"%string Sw.APP_SHELL
  /\ snd (Sw.onInstall network []) = false.
Proof.
  cbv zeta.
  assert (Hin : In "/favicon.ico"%string Sw.APP_SHELL) by (cbn; tauto).
  split; [exact Hin|].
  refine (proj1 (onInstall_all_or_nothing _ [] "/favicon.ico" Hin _)).
  left. reflexivity.
Defined.

(** ** The order of date keys *)

Lemma length_fixedWidth (k : nat) (n : Z) : String.length (fixedWidth k n) = k.
Proof.
  revert n. induction k as [|k IH]; intros n; [reflexivity|].
  cbn [fixedWidth]. rewrite append_length, IH. cbn [String.length]. lia.
Qed.

Lemma ascii_compare_refl (c : ascii) : Ascii.compare c c = Eq.
Proof. unfold Ascii.compare. apply N.compare_refl. Qed.

Lemma compare_app (a1 a2 r1 r2 : string) :
  String.length a1 = String.length a2 ->
  String.compare (a1 ++ r1) (a2 ++ r2)
  = match String.compare a1 a2 with
    | Eq => String.compare r1 r2
    | c => c
    end.
Proof.
  revert a2. induction a1 as [|c1 a1 IH]; intros [|c2 a2] Hlen;
    try discriminate; [reflexivity|].
  rewrite !append_cons. cbn [String.compare].
  destruct (Ascii.compare c1 c2); try reflexivity.
  apply IH. now injection Hlen.
Qed.

Lemma digitChar_compare (x y : Z) :
  0 <= x < 10 -> 0 <= y < 10 ->
  Ascii.compare (digitChar x) (digitChar y) = (x ?= y).
Proof.
  intros Hx Hy. unfold Ascii.compare, digitChar.
  rewrite !N_ascii_embedding by lia.
  rewrite <- N2Z.inj_compare, !N2Z.inj_add, !Z2N.id by lia.
  apply Z.add_compare_mono_l.
Qed.

Lemma compare_fixedWidth (k : nat) (a b : Z) :
  0 <= a < 10 ^ Z.of_nat k -> 0 <= b < 10 ^ Z.of_nat k ->
  String.compare (fixedWidth k a) (fixedWidth k b) = (a ?= b).
Proof.
  revert a b. induction k as [|k IH]; intros a b Ha Hb.
  - change (10 ^ Z.of_nat 0) with 1 in *. assert (a = b) by lia. subst.
    now rewrite Z.compare_refl.
  - rewrite Nat2Z.inj_succ, Z.pow_succ_r in Ha, Hb by lia.
    cbn [fixedWidth]. rewrite compare_app by now rewrite !length_fixedWidth.
    rewrite IH by (Z.to_euclidean_division_equations; lia).
    cbn [String.compare].
    rewrite digitChar_compare by (apply Z.mod_pos_bound; lia).
    destruct (Z.compare_spec (a / 10) (b / 10)),
             (Z.compare_spec (a mod 10) (b mod 10)),
             (Z.compare_spec a b);
      try reflexivity; exfalso; Z.to_euclidean_division_equations; lia.
Qed.

Lemma String_of_int_four_digits (y : Z) :
  1000 <= y <= 9999 -> String_of_int y = fixedWidth 4 y.
Proof.
  intros Hy. rewrite String_of_int_nonneg by lia.
  destruct (padded_fixedWidth 3 y) as [Hlen Heq];
    [change (10 ^ Z.of_nat 4) with 10000; lia|].
  assert (H4 : (4 <= String.length (String_of_nonneg y))%nat).
  { rewrite (String_of_nonneg_unfold y) by lia.
    rewrite (String_of_nonneg_unfold (y / 10))
      by (Z.to_euclidean_division_equations; lia).
    rewrite (String_of_nonneg_unfold (y / 10 / 10))
      by (Z.to_euclidean_division_equations; lia).
    rewrite !append_length. cbn [String.length].
    pose proof (String_of_nonneg_length (y / 10 / 10 / 10)
                  ltac:(Z.to_euclidean_division_equations; lia)). lia. }
  replace (4 - String.length (String_of_nonneg y))%nat with 0%nat in Heq by lia.
  exact Heq.
Qed.

Section DateKeys.
Context {host : Host}.

Lemma toInputDate_digits (s : string) :
  validLocal (newDate s) ->
  toInputDate s
  = (fixedWidth 4 (getFullYear (newDate s))
       ++ String "-" (fixedWidth 2 (getMonth (newDate s) + 1)
       ++ String "-" (fixedWidth 2 (getDate (newDate s)))))%string.
Proof.
  intros (Hy & Hm & Hd). unfold toInputDate.
  rewrite String_of_int_four_digits by exact Hy.
  rewrite !(padStart_fixedWidth 1) by (change (10 ^ Z.of_nat 2) with 100; lia).
  reflexivity.
Qed.

(** X20: for local dates with a year of four digits, the key
    [YYYY-MM-DD] has 10 characters and the order of the keys as strings,
    which the date filter and the buckets of the chart rely on, is the
    order of the calendar. *)
Theorem toInputDate_order (s1 s2 : string) :
  validLocal (newDate s1) -> validLocal (newDate s2) ->
  String.compare (toInputDate s1) (toInputDate s2)
  = civilCompare (newDate s1) (newDate s2)
  /\ String.length (toInputDate s1) = 10%nat.
Proof.
  intros H1 H2. rewrite !toInputDate_digits by assumption.
  destruct H1 as (Hy1 & Hm1 & Hd1), H2 as (Hy2 & Hm2 & Hd2).
  split.
  - unfold civilCompare.
    rewrite compare_app by now rewrite !length_fixedWidth.
    rewrite compare_fixedWidth by (change (10 ^ Z.of_nat 4) with 10000; lia).
    destruct (getFullYear (newDate s1) ?= getFullYear (newDate s2)); try reflexivity.
    cbn [String.compare]. rewrite ascii_compare_refl.
    rewrite compare_app by now rewrite !length_fixedWidth.
    rewrite compare_fixedWidth by (change (10 ^ Z.of_nat 2) with 100; lia).
    rewrite (Z.add_comm (getMonth (newDate s1))), (Z.add_comm (getMonth (newDate s2))),
      Z.add_compare_mono_l.
    destruct (getMonth (newDate s1) ?= getMonth (newDate s2)); try reflexivity.
    cbn [String.compare]. rewrite ascii_compare_refl.
    apply compare_fixedWidth; change (10 ^ Z.of_nat 2) with 100; lia.
  - rewrite append_length, length_fixedWidth. cbn [String.length].
    rewrite append_length, !length_fixedWidth. reflexivity.
Qed.

End DateKeys.

Lemma toInputDate_order_witness :
  validLocal (SampleHost.parseLocal "2024-05-15T18:05")
  /\ validLocal (SampleHost.parseLocal "2024-05-17T07:45")
  /\ String.compare (toInputDate (host := SampleHost.host) "2024-05-15T18:05")
                    (toInputDate (host := SampleHost.host) "2024-05-17T07:45") = Lt.
Proof.
  assert (H1 : validLocal (SampleHost.parseLocal "2024-05-15T18:05"))
    by (vm_compute; repeat split; intro; discriminate).
  assert (H2 : validLocal (SampleHost.parseLocal "2024-05-17T07:45"))
    by (vm_compute; repeat split; intro; discriminate).
  split; [exact H1|]. split; [exact H2|].
  exact (proj1 (toInputDate_order (host := SampleHost.host) _ _ H1 H2)).
Defined.

(** A year of three digits is not padded, and its key sorts after the
    keys of later years. *)
Example toInputDate_short_year :
  toInputDate (host := SampleHost.host) "0999-05-17T07:45" = "999-05-17"%string
  /\ String.ltb (toInputDate (host := SampleHost.host) "2024-05-17T07:45")
                (toInputDate (host := SampleHost.host) "0999-05-17T07:45") = true.
Proof. split; reflexivity. Qed.

(** ** Filters that are off *)

Lemma filter_all {A} (p : A -> bool) (l : list A) :
  (forall x, In x l -> p x = true) -> List.filter p l = l.
Proof.
  induction l as [|x l IH]; intros H; [reflexivity|].
  cbn [List.filter]. rewrite (H x (or_introl eq_refl)). f_equal.
  apply IH. intros y Hy. apply H. now right.
Qed.

Lemma filter_sublist_imp {A} (p q : A -> bool) (l : list A) :
  (forall x, p x = true -> q x = true) ->
  sublist (List.filter p l) (List.filter q l).
Proof.
  intros H. induction l as [|x l IH]; cbn [List.filter]; [constructor|].
  destruct (p x) eqn:E.
  - rewrite (H x E). now apply sublist_skip.
  - destruct (q x); [now apply sublist_cons | exact IH].
Qed.

Section FilterFacts.
Context {host : Host}.

(** X21: with the filters as [resetHistoryFilters] leaves them, or with
    white space alone in the search box, the history shows the whole
    collection. *)
Theorem filteredEntries_no_filter (entries : list Entry) (term : string) :
  trim term = EmptyString ->
  filteredEntries entries (mkFilters term None None EmptyString EmptyString) = entries.
Proof.
  intros Ht. unfold filteredEntries. apply filter_all. intros e _.
  apply keepEntry_satisfies.
  unfold dateInRange, periodMatches, categoryMatches, termMatches.
  cbn [searchTerm filterPeriod filterCategory filterStartDate filterEndDate].
  rewrite Ht. tauto.
Qed.

(** X22: filters only narrow: when each filter of [g] is off or is the
    one of [f], what [f] shows is a sublist of what [g] shows. *)
Theorem filteredEntries_narrows (entries : list Entry) (f g : Filters) :
  looser g f ->
  sublist (filteredEntries entries f) (filteredEntries entries g).
Proof.
  intros (Ht & Hp & Hc & Hs & He). unfold filteredEntries.
  apply filter_sublist_imp. intros e.
  rewrite !keepEntry_satisfies.
  unfold dateInRange, periodMatches, categoryMatches, termMatches.
  intros ((Hs1 & He1) & Hp1 & Hc1 & Ht1).
  repeat split.
  - destruct Hs as [->| ->]; tauto.
  - destruct He as [->| ->]; tauto.
  - destruct Hp as [->| ->]; tauto.
  - destruct Hc as [->| ->]; tauto.
  - destruct Ht as [->| ->]; tauto.
Qed.

End FilterFacts.

Lemma filteredEntries_no_filter_witness :
  trim "  " = EmptyString
  /\ filteredEntries (host := SampleHost.host) initialEntries
       (mkFilters "  " None None EmptyString EmptyString) = initialEntries.
Proof.
  assert (H : trim "  " = EmptyString) by reflexivity.
  split; [exact H | exact (filteredEntries_no_filter (host := SampleHost.host) _ _ H)].
Defined.

Lemma filteredEntries_narrows_witness :
  let f := mkFilters "walk" (Some Fasting) None EmptyString EmptyString in
  let g := mkFilters "walk" None None EmptyString EmptyString in
  looser g f
  /\ sublist (filteredEntries (host := SampleHost.host) initialEntries f)
             (filteredEntries (host := SampleHost.host) initialEntries g).
Proof.
  cbv zeta.
  assert (H : looser (mkFilters "walk" None None EmptyString EmptyString)
                     (mkFilters "walk" (Some Fasting) None EmptyString EmptyString)).
  { unfold looser. cbn. tauto. }
  split; [exact H|].
  exact (filteredEntries_narrows (host := SampleHost.host) initialEntries _ _ H).
Defined.


(** ** Reading a row back *)

Lemma readLine_body (s cur rest : string) :
  readLine Inside cur (doubleQuotes s ++ String dquote rest)
  = readLine AfterQuote (cur ++ s) rest.
Proof.
  revert cur. induction s as [|c s IH]; intros cur.
  - cbn [doubleQuotes]. rewrite append_nil_l, append_nil_r.
    cbn [readLine]. now rewrite Ascii.eqb_refl.
  - cbn [doubleQuotes]. destruct (Ascii.eqb c dquote) eqn:E.
    + apply Ascii.eqb_eq in E. subst c. rewrite !append_cons.
      cbn [readLine]. rewrite !Ascii.eqb_refl. rewrite IH.
      now rewrite <- string_app_assoc.
    + rewrite append_cons. cbn [readLine]. rewrite E, IH.
      now rewrite <- string_app_assoc.
Qed.

Lemma readLine_cell (s rest : string) :
  readLine Outside EmptyString (Csv.escapeCell s ++ rest)
  = readLine AfterQuote s rest.
Proof.
  unfold Csv.escapeCell. rewrite append_cons. cbn [readLine].
  rewrite Ascii.eqb_refl, <- string_app_assoc, append_cons, append_nil_l.
  now rewrite readLine_body.
Qed.

(** X23: a row of the export can be read back: reading the line of any
    fields that are not none, whatever commas, double quotes or line
    breaks they hold, gives these fields; so two different records never
    give the same line. *)
Theorem line_read_back (cells cells' : list string) :
  cells <> [] ->
  readLine Outside EmptyString (Csv.line cells) = Some cells
  /\ (cells' <> [] -> Csv.line cells = Csv.line cells' -> cells = cells').
Proof.
  assert (H : forall l : list string, l <> [] ->
            readLine Outside EmptyString (Csv.line l) = Some l).
  { unfold Csv.line. induction l as [|x l IH]; [congruence|]. intros _.
    destruct l as [|y l].
    - cbn [map join]. rewrite <- (append_nil_r (Csv.escapeCell x)).
      now rewrite readLine_cell.
    - change (join "," (map Csv.escapeCell (x :: y :: l)))
        with (Csv.escapeCell x ++ "," ++ join "," (map Csv.escapeCell (y :: l)))%string.
      rewrite readLine_cell.
      change ("," ++ join "," (map Csv.escapeCell (y :: l)))%string
        with (String "," (join "," (map Csv.escapeCell (y :: l)))).
      cbn [readLine]. change (Ascii.eqb "," dquote) with false.
      change (Ascii.eqb "," ",") with true. cbv iota.
      rewrite IH by discriminate. reflexivity. }
  intros Hne. split; [now apply H|].
  intros Hne' E. apply H in Hne, Hne'. rewrite E in Hne. congruence.
Qed.

Lemma line_read_back_witness :
  let cells := ["2024-05-15"; "07:20 AM"; "Fasting"; "5.3"; "walk, then rest"]%string in
  cells <> [] /\ readLine Outside EmptyString (Csv.line cells) = Some cells.
Proof.
  cbv zeta.
  assert (H : ["2024-05-15"; "07:20 AM"; "Fasting"; "5.3"; "walk, then rest"]%string <> [])
    by discriminate.
  split; [exact H|]. exact (proj1 (line_read_back _ [] H)).
Defined.
